(** * pokt-tracker-bot: a model of [app.py] and the properties of its
    detector, classifier, news watcher, notifier, monitor loop and
    command dispatcher.

    The program is Python: its values are dynamically typed, its
    functions raise exceptions, and its monitor runs in a thread next
    to the request handlers.  The model keeps those three aspects:
    - [pyval] is the universe of values the functions receive (what a
      JSON document decodes to), floats being IEEE binary64;
    - [result] carries the exception a call raises, [exn] the classes
      the [except] clauses of the program tell apart;
    - [world] is the shared state of the process (the stop event, the
      monitor threads, the messages handed to the transport), and
      [step] interleaves handled requests with thread steps. *)

From Stdlib Require Import ZArith List String Ascii Bool Lia.
From Stdlib Require Import Floats.SpecFloat.
Import ListNotations.

Set Warnings "-register-all".
Local Open Scope string_scope.
Local Open Scope Z_scope.
Local Open Scope list_scope.

(** ** Python values *)

(** IEEE binary64, the format of a Python [float]. *)
Definition float := spec_float.
Definition prec : Z := 53.
Definition emax : Z := 1024.

Inductive pyval : Type :=
| PNone
| PBool (b : bool)
| PInt (n : Z)
| PFloat (x : float)
| PStr (s : string)
| PList (items : list pyval)
| PDict (items : list (string * pyval)).

(** A dict is kept as its items in insertion order; its keys are text
    (every key the program looks up is a string literal). *)
Definition dict := list (string * pyval).

Fixpoint lookup (key : string) (d : dict) : option pyval :=
  match d with
  | [] => None
  | (k, v) :: rest => if String.eqb k key then Some v else lookup key rest
  end.

(** ** Exceptions *)

(** The classes the program's [except] clauses distinguish.
    [RequestException] stands for [requests.RequestException] and its
    subclasses and carries [str(e)]; [Exception] for any other class. *)
Inductive exn : Type :=
| ValueError
| TypeError
| KeyError
| AttributeError
| OverflowError
| RequestException (description : string)
| Exception (description : string).

Inductive result (A : Type) : Type :=
| Ok (a : A)
| Raise (e : exn).
Arguments Ok {A} a.
Arguments Raise {A} e.

Definition bind {A B} (r : result A) (k : A -> result B) : result B :=
  match r with
  | Ok a => k a
  | Raise e => Raise e
  end.

Declare Scope py_scope.
Delimit Scope py_scope with py.
Notation "x <- e ;; k" := (bind e (fun x => k))
  (at level 61, e at next level, right associativity) : py_scope.
Local Open Scope py_scope.

(** ** Built-in operations the program uses *)

(** [obj.get(key, default)]: only a dict has the method. *)
Definition py_get (obj : pyval) (key : string) (default : pyval) : result pyval :=
  match obj with
  | PDict d => Ok (match lookup key d with Some v => v | None => default end)
  | _ => Raise AttributeError
  end.

(** [obj[key]] with a string key. *)
Definition py_getitem (obj : pyval) (key : string) : result pyval :=
  match obj with
  | PDict d => match lookup key d with Some v => Ok v | None => Raise KeyError end
  | _ => Raise TypeError
  end.

(** [bool(v)], the test of [if not v]. *)
Definition truthy (v : pyval) : bool :=
  match v with
  | PNone => false
  | PBool b => b
  | PInt n => negb (n =? 0)
  | PFloat (S754_zero _) => false
  | PFloat _ => true
  | PStr s => negb (String.eqb s EmptyString)
  | PList l => match l with [] => false | _ => true end
  | PDict d => match d with [] => false | _ => true end
  end.

(** [v == s] for a string literal [s]. *)
Definition py_eq_str (v : pyval) (s : string) : bool :=
  match v with
  | PStr t => String.eqb t s
  | _ => false
  end.

(** *** Floats *)

(** The float nearest to an integer (ties to even); an infinity where
    the integer is beyond the format. *)
Definition float_of_Z (n : Z) : float := binary_normalize prec emax n 0 false.

(** [float(n)] for an [int]. *)
Definition int_to_float (n : Z) : result float :=
  match float_of_Z n with
  | S754_infinity _ => Raise OverflowError
  | x => Ok x
  end.

(** [x >= n] for a float and an [int]: Python compares the two exact
    values, without converting the integer. *)
Definition float_ge_Z (x : float) (n : Z) : bool :=
  match x with
  | S754_nan => false
  | S754_infinity s => negb s
  | S754_zero _ => n <=? 0
  | S754_finite s m e =>
      let v := if s then Z.neg m else Z.pos m in
      if 0 <=? e then n <=? v * 2 ^ e else n * 2 ^ (- e) <=? v
  end.

(** [x >= other] for a float [x]: a number on the right is compared,
    anything else is a [TypeError]; a NaN compares false. *)
Definition py_ge (x : float) (other : pyval) : result bool :=
  match other with
  | PFloat y => Ok (SFleb y x)
  | PInt n => Ok (float_ge_Z x n)
  | PBool b => Ok (float_ge_Z x (if b then 1 else 0))
  | PNone | PStr _ | PList _ | PDict _ => Raise TypeError
  end.

(** [x / 1_000_000]: the integer is converted (exactly) and the floats
    divided; the divisor is not zero. *)
Definition scale : float := float_of_Z 1000000.
Definition to_display (x : float) : float := SFdiv prec emax x scale.

(** ** Movement Detector: [detect_large_movements] *)

Section Detector.

(** [float(s)] for a [str] is Python's own parser: [None] where it
    raises [ValueError]. *)
Variable float_of_text : string -> option float.

(** [float(v)]. *)
Definition py_float (v : pyval) : result float :=
  match v with
  | PFloat x => Ok x
  | PInt n => int_to_float n
  | PBool b => Ok (float_of_Z (if b then 1 else 0))
  | PStr s => match float_of_text s with Some x => Ok x | None => Raise ValueError end
  | PNone | PList _ | PDict _ => Raise TypeError
  end.

(** [tx.get("stdTx", {}).get("msg", {}).get("value", {})], the chain
    lines 48, 53 and 54 each start with. *)
Definition tx_value (tx : pyval) : result pyval :=
  stdTx <- py_get tx "stdTx" (PDict []) ;;
  msg <- py_get stdTx "msg" (PDict []) ;;
  py_get msg "value" (PDict []).

(** Line 48: the amount in display units. *)
Definition tx_amount (tx : pyval) : result float :=
  value <- tx_value tx ;;
  raw <- py_get value "amount" (PInt 0) ;;
  x <- py_float raw ;;
  Ok (to_display x).

(** Lines 50-56: the dict literal, its values read in source order. *)
Definition movement (tx : pyval) (amount : float) : result pyval :=
  tx_hash <- py_get tx "hash" PNone ;;
  value_from <- tx_value tx ;;
  from <- py_get value_from "from_address" PNone ;;
  value_to <- tx_value tx ;;
  to <- py_get value_to "to_address" PNone ;;
  time <- py_get tx "time" PNone ;;
  Ok (PDict [("tx_hash", tx_hash); ("amount", PFloat amount);
             ("from", from); ("to", to); ("time", time)]).

(** The body of the [try] (lines 48-56) for one transaction: the list
    [large_movements] after it, or the exception it raises.  The
    [append] is the last thing done. *)
Definition detect_try (tx threshold : pyval) (large_movements : list pyval)
  : result (list pyval) :=
  amount <- tx_amount tx ;;
  large <- py_ge amount threshold ;;
  if large : bool then
    alert <- movement tx amount ;;
    Ok (large_movements ++ [alert])
  else Ok large_movements.

(** [except (ValueError, TypeError, KeyError): continue]. *)
Definition skipped (e : exn) : bool :=
  match e with
  | ValueError | TypeError | KeyError => true
  | _ => false
  end.

(** The [for] loop of lines 46-58 over the transactions left. *)
Fixpoint detect_loop (transactions : list pyval) (threshold : pyval)
  (large_movements : list pyval) : result (list pyval) :=
  match transactions with
  | [] => Ok large_movements
  | tx :: rest =>
      match detect_try tx threshold large_movements with
      | Ok appended => detect_loop rest threshold appended
      | Raise e =>
          if skipped e then detect_loop rest threshold large_movements
          else Raise e
      end
  end.

Definition detect_large_movements (transactions : list pyval) (threshold : pyval)
  : result (list pyval) :=
  detect_loop transactions threshold [].

End Detector.

(** The default of the [threshold] parameter. *)
Definition default_threshold : pyval := PInt 100000.

(** ** Address Classifier: [check_exchange_wallet] *)

Definition known_exchanges : dict :=
  [("0x1234...", PStr "Binance"); ("0x5678...", PStr "Coinbase")].

(** [known_exchanges.get(address, "Unknown")]: the key is hashed, which
    a list or a dict refuses; a key that is not text equals no key of
    the table. *)
Definition check_exchange_wallet (address : pyval) : result pyval :=
  match address with
  | PStr a =>
      Ok (match lookup a known_exchanges with
          | Some label => label
          | None => PStr "Unknown"
          end)
  | PList _ | PDict _ => Raise TypeError
  | PNone | PBool _ | PInt _ | PFloat _ => Ok (PStr "Unknown")
  end.

(** ** Text *)

(** An f-string is kept as its parts, literal text and formatted
    values ([{v}] has the empty format, [{v:.2f}] the format [.2f]):
    rendering a value is Python's, and no property below depends on
    it. *)
Inductive part : Type :=
| Lit (s : string)
| Fmt (v : pyval) (spec : string).

Definition text := list part.

Definition newline : string := String "010"%char EmptyString.

(** [s.lower()] on the ASCII letters, the only ones the two keywords
    of the news check are made of. *)
Definition lower_char (c : ascii) : ascii :=
  let n := nat_of_ascii c in
  if (Nat.leb 65 n && Nat.leb n 90)%bool then ascii_of_nat (n + 32) else c.

Fixpoint lower (s : string) : string :=
  match s with
  | EmptyString => EmptyString
  | String c rest => String (lower_char c) (lower rest)
  end.

(** [needle in haystack] for two strings. *)
Fixpoint contains (needle haystack : string) : bool :=
  (String.prefix needle haystack ||
   match haystack with
   | EmptyString => false
   | String _ rest => contains needle rest
   end)%bool.

(** ** News Watcher: [fetch_migration_news] *)

(** A feed entry as the program reads it: two attributes, each of
    which the entry may lack ([entry.title] then raises
    [AttributeError]). *)
Record entry : Type := { title : option string; link : option string }.

Definition attribute (a : option string) : result string :=
  match a with
  | Some s => Ok s
  | None => Raise AttributeError
  end.

(** The [for] loop of lines 74-77 over the entries left. *)
Fixpoint scan_entries (entries : list entry) : result (option text) :=
  match entries with
  | [] => Ok None
  | e :: rest =>
      t <- attribute (title e) ;;
      if (contains "shannon" (lower t) || contains "upgrade" (lower t))%bool then
        t' <- attribute (title e) ;;
        l <- attribute (link e) ;;
        Ok (Some [Lit "📰 Shannon 업그레이드 뉴스: "; Fmt (PStr t') "";
                  Lit (newline ++ "링크: ")%string; Fmt (PStr l) ""])
      else scan_entries rest
  end.

(** Lines 72-80 given what [feedparser.parse] did: [feed.entries] or
    the exception it raised; [except Exception] catches every class. *)
Definition migration_news (parsed : result (list entry)) : option text :=
  match (entries <- parsed ;; scan_entries (firstn 5 entries)) with
  | Ok news => news
  | Raise _ => None
  end.

(** ** The process *)

(** A thread started on [monitor_pokt]: where it stands, and how many
    times it went through lines 100-116. *)
Inductive pc : Type :=
| Polling                (* at the test of the [while], line 99 *)
| Sleeping               (* inside [time.sleep(300)], line 118 *)
| Finished               (* the loop was left and the function returned *)
| Crashed (e : exn).     (* an exception left the function *)

Record thread : Type := { at_pc : pc; cycles : nat }.

(** The state the request handlers and the monitor threads share, and
    what the process did so far. *)
Record world : Type := {
  stop_event : bool;               (* [monitor_stop_event.is_set()] *)
  threads : list thread;           (* in the order they were started *)
  outbox : list (pyval * text);    (* the [(chat_id, text)] posted, oldest first *)
  feed_reads : nat                 (* calls of [feedparser.parse] so far *)
}.

(** Line 95: [Event()] is created clear; no thread is started and
    nothing has been sent. *)
Definition initial : world :=
  {| stop_event := false; threads := []; outbox := []; feed_reads := 0 |}.

(** Code that reads and writes the world and may raise. *)
Definition M (A : Type) : Type := world -> result A * world.

Definition ret {A} (a : A) : M A := fun w => (Ok a, w).

Definition bindM {A B} (m : M A) (k : A -> M B) : M B :=
  fun w =>
    match m w with
    | (Ok a, w') => k a w'
    | (Raise e, w') => (Raise e, w')
    end.

Definition lift {A} (r : result A) : M A := fun w => (r, w).

Notation "x <~ e ;; k" := (bindM e (fun x => k))
  (at level 61, e at next level, right associativity) : py_scope.

Definition is_set : M bool := fun w => (Ok (stop_event w), w).

Definition set_event (b : bool) : M unit :=
  fun w => (Ok tt, {| stop_event := b; threads := threads w;
                      outbox := outbox w; feed_reads := feed_reads w |}).

(** [Thread(target=monitor_pokt, daemon=True).start()]. *)
Definition start_thread : M unit :=
  fun w => (Ok tt, {| stop_event := stop_event w;
                      threads := threads w ++ [{| at_pc := Polling; cycles := 0 |}];
                      outbox := outbox w; feed_reads := feed_reads w |}).

Definition posted (chat_id : pyval) (message : text) (w : world) : world :=
  {| stop_event := stop_event w; threads := threads w;
     outbox := outbox w ++ [(chat_id, message)]; feed_reads := feed_reads w |}.

Definition feed_read (w : world) : world :=
  {| stop_event := stop_event w; threads := threads w;
     outbox := outbox w; feed_reads := S (feed_reads w) |}.

(** Line 18: the stub returns its one dummy transaction. *)
Definition fetch_pokt_transactions : list pyval :=
  [PDict [("hash", PStr "abc123");
          ("stdTx", PDict [("msg", PDict [("value", PDict [
                               ("amount", PInt 150000000000);
                               ("from_address", PStr "0x1111...");
                               ("to_address", PStr "0x1234...")])]);
                           ("time", PStr "2025-05-29T09:20:00")])]].

(** [s in container] for a string [s]: a key of a dict, an element of
    a list, a substring of a string; other values are not containers. *)
Definition py_in (s : string) (container : pyval) : result bool :=
  match container with
  | PDict d => Ok (match lookup s d with Some _ => true | None => false end)
  | PList l => Ok (existsb (fun v => py_eq_str v s) l)
  | PStr t => Ok (contains s t)
  | PNone | PBool _ | PInt _ | PFloat _ => Raise TypeError
  end.

Fixpoint replace {A} (i : nat) (a : A) (l : list A) : list A :=
  match l, i with
  | [], _ => []
  | _ :: rest, O => a :: rest
  | x :: rest, S j => x :: replace j a rest
  end.

Definition set_thread (i : nat) (t : thread) (w : world) : world :=
  {| stop_event := stop_event w; threads := replace i t (threads w);
     outbox := outbox w; feed_reads := feed_reads w |}.

Section Bot.

(** What the process does not decide: Python's text-to-float parser,
    the configured chat, and what the network answers.  [telegram n] is
    the outcome of lines 87-89 ([requests.post], [raise_for_status],
    [response.json()]) for the [n]-th message posted, the decoded reply
    or the exception raised; [feed n] is the outcome of the [n]-th
    [feedparser.parse]. *)
Variable float_of_text : string -> option float.
Variable TELEGRAM_CHAT_ID : string.
Variable telegram : nat -> result pyval.
Variable feed : nat -> result (list entry).

(** ** Notifier: [send_telegram_message] *)

(** [except requests.RequestException as e] turns a failure of the
    transport into a reply; an exception of another class propagates. *)
Definition send_telegram_message (chat_id : pyval) (message : text) : M pyval :=
  fun w =>
    let w' := posted chat_id message w in
    match telegram (List.length (outbox w)) with
    | Ok reply => (Ok reply, w')
    | Raise (RequestException description) =>
        (Ok (PDict [("ok", PBool false); ("description", PStr description)]), w')
    | Raise e => (Raise e, w')
    end.

Definition fetch_migration_news : M (option text) :=
  fun w => (Ok (migration_news (feed (feed_reads w))), feed_read w).

(** ** Monitor Loop: [monitor_pokt] *)

(** Lines 103-112 for one movement. *)
Definition notify_movement (movement : pyval) : M unit :=
  to <~ lift (py_getitem movement "to") ;;
  to_exchange <~ lift (check_exchange_wallet to) ;;
  amount <~ lift (py_getitem movement "amount") ;;
  from <~ lift (py_getitem movement "from") ;;
  to' <~ lift (py_getitem movement "to") ;;
  time <~ lift (py_getitem movement "time") ;;
  tx_hash <~ lift (py_getitem movement "tx_hash") ;;
  _ <~ send_telegram_message (PStr TELEGRAM_CHAT_ID)
         [Lit ("🚨 POKT 대량 이동 감지!" ++ newline ++ "금액: ")%string;
          Fmt amount ".2f";
          Lit (" POKT" ++ newline ++ "보낸 주소: ")%string; Fmt from "";
          Lit (newline ++ "받은 주소: ")%string; Fmt to' "";
          Lit " ("; Fmt to_exchange "";
          Lit (")" ++ newline ++ "시간: ")%string; Fmt time "";
          Lit (newline ++ "Tx Hash: ")%string; Fmt tx_hash ""] ;;
  ret tt.

Fixpoint notify_movements (large_movements : list pyval) : M unit :=
  match large_movements with
  | [] => ret tt
  | movement :: rest =>
      _ <~ notify_movement movement ;;
      notify_movements rest
  end.

(** One pass through lines 100-116, the body of the [while] before the
    sleep.  The news text starts with a literal, so [if news] holds
    exactly when a text was returned. *)
Definition monitor_cycle : M unit :=
  let transactions := fetch_pokt_transactions in
  large_movements <~ lift (detect_large_movements float_of_text transactions
                             default_threshold) ;;
  _ <~ notify_movements large_movements ;;
  news <~ fetch_migration_news ;;
  match news with
  | Some message =>
      _ <~ send_telegram_message (PStr TELEGRAM_CHAT_ID) message ;;
      ret tt
  | None => ret tt
  end.

(** Thread [i] runs up to the next point where it waits or ends: from
    the test of the [while] either out of the loop (the event is set)
    or through one cycle into the sleep; from the sleep back to the
    test.  The flag is read at the test only. *)
Definition monitor_pokt (i : nat) (w : world) : world :=
  match nth_error (threads w) i with
  | None => w
  | Some t =>
      match at_pc t with
      | Polling =>
          if stop_event w then
            set_thread i {| at_pc := Finished; cycles := cycles t |} w
          else
            match monitor_cycle w with
            | (Ok _, w') =>
                set_thread i {| at_pc := Sleeping; cycles := S (cycles t) |} w'
            | (Raise e, w') =>
                set_thread i {| at_pc := Crashed e; cycles := S (cycles t) |} w'
            end
      | Sleeping => set_thread i {| at_pc := Polling; cycles := cycles t |} w
      | Finished | Crashed _ => w
      end
  end.

(** ** Command Dispatcher: [webhook] *)

Definition reply (chat_id : pyval) (message : text) : M unit :=
  _ <~ send_telegram_message chat_id message ;;
  ret tt.

(** Lines 153-155, the branch of [/monitor] taken when the event was
    found set at line 150. *)
Definition start_monitoring (chat_id : pyval) : M unit :=
  _ <~ set_event false ;;
  _ <~ start_thread ;;
  reply chat_id [Lit "POKT 모니터링을 시작했습니다."].

(** Lines 143-160: the command the text names, each branch with its
    one reply to the chat the message came from. *)
Definition dispatch (chat_id text : pyval) : M unit :=
  if py_eq_str text "/start" then
    reply chat_id
      [Lit "안녕하세요! POKT 추적 봇입니다. /help로 도움말을 확인하세요."]
  else if py_eq_str text "/help" then
    reply chat_id
      [Lit ("사용 가능한 명령어:" ++ newline ++
            "/start - 봇 시작" ++ newline ++
            "/help - 도움말" ++ newline ++
            "/status - 서버 상태 확인" ++ newline ++
            "/monitor - POKT 모니터링 시작" ++ newline ++
            "/stop - 모니터링 중지")%string]
  else if py_eq_str text "/status" then
    reply chat_id [Lit "서버 상태: 정상 작동 중"]
  else if py_eq_str text "/monitor" then
    stopped <~ is_set ;;
    if negb stopped then
      reply chat_id [Lit "POKT 모니터링이 이미 실행 중입니다."]
    else start_monitoring chat_id
  else if py_eq_str text "/stop" then
    _ <~ set_event true ;;
    reply chat_id [Lit "POKT 모니터링을 중지했습니다."]
  else
    reply chat_id [Lit "받은 메시지: "; Fmt text ""].

(** Lines 133-161, [update] being what [request.get_json()] returned.
    The value is the pair the view returns, body and status; an
    exception leaves the view (the framework answers 500). *)
Definition webhook (update : pyval) : M (string * Z) :=
  if negb (truthy update) then ret ("Invalid request", 400)
  else
    has_message <~ lift (py_in "message" update) ;;
    _ <~ (if has_message : bool then
            message <~ lift (py_getitem update "message") ;;
            chat <~ lift (py_getitem message "chat") ;;
            chat_id <~ lift (py_getitem chat "id") ;;
            message' <~ lift (py_getitem update "message") ;;
            text <~ lift (py_get message' "text" (PStr "")) ;;
            dispatch chat_id text
          else ret tt) ;;
    ret ("ok", 200).

(** ** The process as a transition system *)

(** What happens next: a request is handled, or a monitor thread
    runs.  Requests are handled one after the other here; the threads
    run between them in any order. *)
Inductive event : Type :=
| Request (update : pyval)
| Run (i : nat).

Definition step (ev : event) (w : world) : world :=
  match ev with
  | Request update => snd (webhook update w)
  | Run i => monitor_pokt i w
  end.

Fixpoint run (evs : list event) (w : world) : world :=
  match evs with
  | [] => w
  | ev :: rest => run rest (step ev w)
  end.

End Bot.

(** A monitor thread that is still in its loop. *)
Definition active (t : thread) : bool :=
  match at_pc t with
  | Polling | Sleeping => true
  | Finished | Crashed _ => false
  end.

Definition active_loops (w : world) : nat :=
  List.length (filter active (threads w)).

(** The update a chat message decodes to. *)
Definition command (chat_id : pyval) (txt : string) : pyval :=
  PDict [("update_id", PInt 1);
         ("message", PDict [("chat", PDict [("id", chat_id)]);
                            ("text", PStr txt)])].


(** ** The detector in the words of its contract *)

(** The member [key] of an object, [None] where it has none. *)
Definition item (key : string) (obj : pyval) : pyval :=
  match obj with
  | PDict d => match lookup key d with Some v => v | None => PNone end
  | _ => PNone
  end.

(** The transaction is an object whose members [stdTx], [msg] and
    [value], where present, are objects: the chain of line 48 arrives
    at the object [v] (the empty one where a member is absent). *)
Definition reaches (tx : pyval) (v : dict) : Prop :=
  tx_value tx = Ok (PDict v).

(** A well-formed transaction: its amount is an integer of the
    smallest unit, within the range of a float. *)
Definition finite (x : float) : bool :=
  match x with
  | S754_zero _ | S754_finite _ _ _ => true
  | S754_infinity _ | S754_nan => false
  end.

Definition well_formed (tx : pyval) (raw : Z) : Prop :=
  exists v, reaches tx v /\ lookup "amount" v = Some (PInt raw) /\
            finite (float_of_Z raw) = true.

(** The raw amount of a transaction, and the amount in display units,
    raw amount / 1,000,000. *)
Definition raw_amount (tx : pyval) : Z :=
  match tx_value tx with
  | Ok (PDict v) => match lookup "amount" v with Some (PInt raw) => raw | _ => 0 end
  | _ => 0
  end.

Definition display_amount (tx : pyval) : float :=
  to_display (float_of_Z (raw_amount tx)).

Definition numeric (threshold : pyval) : bool :=
  match threshold with
  | PInt _ | PFloat _ | PBool _ => true
  | _ => false
  end.

(** [amount >= threshold], inclusive. *)
Definition reaches_threshold (threshold tx : pyval) : bool :=
  match py_ge (display_amount tx) threshold with
  | Ok large => large
  | Raise _ => false
  end.

(** The alert of a transaction. *)
Definition alert (tx : pyval) : pyval :=
  let value := match tx_value tx with Ok v => v | Raise _ => PNone end in
  PDict [("tx_hash", item "hash" tx); ("amount", PFloat (display_amount tx));
         ("from", item "from_address" value); ("to", item "to_address" value);
         ("time", item "time" tx)].


(** A threshold above zero. *)
Definition positive (threshold : pyval) : Prop :=
  match threshold with
  | PInt n => 0 < n
  | PFloat y => SFltb (S754_zero false) y = true
  | PBool b => b = true
  | _ => False
  end.

(** An amount that is not a number: [float] raises one of the two
    exceptions the detector catches. *)
Definition not_a_number (float_of_text : string -> option float) (a : pyval) : Prop :=
  py_float float_of_text a = Raise ValueError \/
  py_float float_of_text a = Raise TypeError.

(** ** The news check in the words of its contract *)

(** The title contains one of the two keywords, whatever the case of
    its letters. *)
Definition mentions (keyword t : string) : Prop :=
  exists before mid after,
    t = (before ++ mid ++ after)%string /\ lower mid = keyword.

Definition relevant (t : string) : Prop :=
  mentions "shannon" t \/ mentions "upgrade" t.

(** The test of line 75. *)
Definition matches (t : string) : bool :=
  (contains "shannon" (lower t) || contains "upgrade" (lower t))%bool.

(** An entry with both attributes, and the text built from them. *)
Definition complete (e : entry) (t l : string) : Prop :=
  title e = Some t /\ link e = Some l.

Definition news_text (t l : string) : text :=
  [Lit "📰 Shannon 업그레이드 뉴스: "; Fmt (PStr t) "";
   Lit (newline ++ "링크: ")%string; Fmt (PStr l) ""].

Definition has_title (e : entry) : Prop := exists t, title e = Some t.

Definition irrelevant (e : entry) : Prop :=
  exists t, title e = Some t /\ ~ relevant t.

(** ** Requests *)

(** The update is a chat message: an object with a [message] object
    that has a [chat] object with an [id], and the text [txt] (the
    empty string where the message has none). *)
Inductive chat_message (update chat_id txt : pyval) : Prop :=
| is_chat_message (d m c : dict) :
    update = PDict d ->
    lookup "message" d = Some (PDict m) ->
    lookup "chat" m = Some (PDict c) ->
    lookup "id" c = Some chat_id ->
    match lookup "text" m with Some t => t | None => PStr "" end = txt ->
    chat_message update chat_id txt.

(** The transport fails only the way [send_telegram_message] expects:
    what lines 87-89 raise is a [requests.RequestException]. *)
Definition transport_failure (outcome : result pyval) : Prop :=
  match outcome with
  | Ok _ => True
  | Raise (RequestException _) => True
  | Raise _ => False
  end.

Definition already_running : text := [Lit "POKT 모니터링이 이미 실행 중입니다."].
Definition monitoring_started : text := [Lit "POKT 모니터링을 시작했습니다."].
Definition monitoring_stopped : text := [Lit "POKT 모니터링을 중지했습니다."].

(** The event stays set while the events [evs] happen from [w]. *)
Fixpoint stopped_throughout
  (float_of_text : string -> option float) (chat : string)
  (telegram : nat -> result pyval) (feed : nat -> result (list entry))
  (evs : list event) (w : world) : Prop :=
  stop_event w = true /\
  match evs with
  | [] => True
  | ev :: rest =>
      stopped_throughout float_of_text chat telegram feed rest
        (step float_of_text chat telegram feed ev w)
  end.

(** How often thread [i] runs in [evs]. *)
Fixpoint runs_of (i : nat) (evs : list event) : nat :=
  match evs with
  | [] => 0
  | Run j :: rest => (if Nat.eqb i j then 1 else 0) + runs_of i rest
  | Request _ :: rest => runs_of i rest
  end.

(** ** A concrete environment *)

(** An environment to run the program in: no text is a number, every
    message is delivered, the feed is empty. *)
Definition no_numbers (s : string) : option float := None.
Definition delivered (n : nat) : result pyval := Ok (PDict [("ok", PBool true)]).
Definition timed_out (n : nat) : result pyval := Raise (RequestException "timed out").
Definition empty_feed (n : nat) : result (list entry) := Ok [].
Definition chat_of_the_bot : string := "1000".

(** A transfer of 150,000 POKT that names no receiver, one whose
    amount is [None], and one that names neither amount nor addresses. *)
Definition tx_without_receiver : pyval :=
  PDict [("hash", PStr "abc123");
         ("stdTx", PDict [("msg", PDict [("value", PDict [
                              ("amount", PInt 150000000000);
                              ("from_address", PStr "0x1111...")])])])].

Definition tx_amount_none : pyval :=
  PDict [("hash", PStr "def456");
         ("stdTx", PDict [("msg", PDict [("value", PDict [
                              ("amount", PNone);
                              ("from_address", PStr "0x1111...");
                              ("to_address", PStr "0x1234...")])])])].

Definition tx_bare : pyval := PDict [("hash", PStr "0a0b")].

(** The requests of one chat, and a process whose transport delivers
    and whose feed is empty. *)
Definition stop : event := Request (command (PInt 7) "/stop").
Definition monitor : event := Request (command (PInt 7) "/monitor").
Definition status : event := Request (command (PInt 7) "/status").

Definition process : list event -> world -> world :=
  run no_numbers chat_of_the_bot delivered empty_feed.

(** A first loop is started (after a stop, see C1), runs a cycle and
    sleeps; the user stops the monitoring. *)
Definition stopped_asleep : world := process [stop; monitor; Run 0; stop] initial.



(** ** The other endpoints and the start of the process *)

Section Endpoints.

Variable TELEGRAM_CHAT_ID : string.
Variable telegram : nat -> result pyval.

(** Lines 123-125. *)
Definition home : string := "POKT 추적 봇 서버 동작 중입니다.".

(** Lines 127-130: the result of the send is dropped. *)
Definition test : M string :=
  _ <~ send_telegram_message telegram (PStr TELEGRAM_CHAT_ID)
         [Lit "✅ 테스트 메시지: 서버가 잘 작동 중입니다."] ;;
  ret "텔레그램 메시지 전송 완료!".

End Endpoints.



Section Startup.

(** [int(s)] for a [str] is Python's own parser: [None] where it
    raises [ValueError]. *)
Variable int_of_text : string -> option Z.





End Startup.

(** One list is the other with some elements left out. *)
Inductive subsequence {A : Type} : list A -> list A -> Prop :=
| subsequence_nil : subsequence [] []
| subsequence_keep x l1 l2 : subsequence l1 l2 -> subsequence (x :: l1) (x :: l2)
| subsequence_skip x l1 l2 : subsequence l1 l2 -> subsequence l1 (x :: l2).

(** The alert message of lines 104-111 for a movement with these
    members. *)
Definition alert_text (amount from to to_exchange time tx_hash : pyval) : text :=
  [Lit ("🚨 POKT 대량 이동 감지!" ++ newline ++ "금액: ")%string;
   Fmt amount ".2f";
   Lit (" POKT" ++ newline ++ "보낸 주소: ")%string; Fmt from "";
   Lit (newline ++ "받은 주소: ")%string; Fmt to "";
   Lit " ("; Fmt to_exchange "";
   Lit (")" ++ newline ++ "시간: ")%string; Fmt time "";
   Lit (newline ++ "Tx Hash: ")%string; Fmt tx_hash ""].

(** A value a dict accepts as a key. *)
Definition hashable (v : pyval) : bool :=
  match v with
  | PList _ | PDict _ => false
  | _ => true
  end.

(** One of the five commands. *)
Definition is_command (txt : pyval) : bool :=
  (py_eq_str txt "/start" || py_eq_str txt "/help" || py_eq_str txt "/status" ||
   py_eq_str txt "/monitor" || py_eq_str txt "/stop")%bool.

(** The world with the event set or cleared. *)
Definition with_event (b : bool) (w : world) : world :=
  {| stop_event := b; threads := threads w;
     outbox := outbox w; feed_reads := feed_reads w |}.

(** The world after lines 153-154: the event clear, one more thread
    at the test of its loop. *)
Definition started (w : world) : world :=
  {| stop_event := false;
     threads := threads w ++ [{| at_pc := Polling; cycles := 0 |}];
     outbox := outbox w; feed_reads := feed_reads w |}.

(** From [w] to [w'] the messages [posts] were posted and the feed
    may have been read; the event and the threads are as they were. *)
Definition grown (w w' : world) (posts : list (pyval * text)) : Prop :=
  stop_event w' = stop_event w /\ threads w' = threads w /\
  outbox w' = outbox w ++ posts /\ (feed_reads w <= feed_reads w')%nat.

(** The alert of the one transaction the stub returns. *)
Definition stub_alert : pyval :=
  PDict [("tx_hash", PStr "abc123"); ("amount", PFloat (float_of_Z 150000));
         ("from", PStr "0x1111..."); ("to", PStr "0x1234..."); ("time", PNone)].

Definition stub_alert_text : text :=
  alert_text (PFloat (float_of_Z 150000)) (PStr "0x1111...") (PStr "0x1234...")
    (PStr "Binance") PNone (PStr "abc123").

(** What the feed check adds to a cycle: the news for the configured
    chat, if the feed read in this state has any. *)
Definition news_posts (TELEGRAM_CHAT_ID : string) (feed : nat -> result (list entry))
  (w : world) : list (pyval * text) :=
  match migration_news (feed (feed_reads w)) with
  | Some message => [(PStr TELEGRAM_CHAT_ID, message)]
  | None => []
  end.

(** A process with one thread at the test of its loop and the event
    clear, a transport that raises something else than a transport
    failure, and a feed with a relevant entry. *)
Definition one_loop : world :=
  {| stop_event := false; threads := [{| at_pc := Polling; cycles := 0 |}];
     outbox := []; feed_reads := 0 |}.

Definition broken (n : nat) : result pyval := Raise (Exception "broken pipe").

Definition shannon_feed (n : nat) : result (list entry) :=
  Ok [{| title := Some "Shannon mainnet launch";
         link := Some "https://pocket.network/s" |}].


(** ** Notions the properties are stated with *)

(** The second half of [binary_round_aux]: the rounded mantissa is
    renormalized. *)
Definition finish (s : bool) (m : Z) (e : Z) : float :=
  let '(mrs, e') := shr_fexp prec emax m e loc_Exact in
  match shr_m mrs with
  | Z0 => S754_zero s
  | Zpos m => if e' <=? emax - prec then S754_finite s m e' else S754_infinity s
  | _ => S754_nan
  end.

(** The amount, where there is one, is not an integer beyond the range
    of a float. *)
Definition in_range (v : dict) : Prop :=
  forall n, lookup "amount" v = Some (PInt n) -> finite (float_of_Z n) = true.

(** A transaction the body of the [try] adds nothing for, or raises a
    caught exception on, is passed over. *)
Definition passed_over (float_of_text : string -> option float)
  (tx threshold : pyval) : Prop :=
  detect_try float_of_text tx threshold [] = Ok [] \/
  exists e, detect_try float_of_text tx threshold [] = Raise e /\ skipped e = true.

(** What a step of its own does to a thread while the event is set:
    from the test out of the loop, from the sleep to the test. *)
Definition wind_down (t : thread) : thread :=
  match at_pc t with
  | Polling => {| at_pc := Finished; cycles := cycles t |}
  | Sleeping => {| at_pc := Polling; cycles := cycles t |}
  | Finished | Crashed _ => t
  end.

Fixpoint wind_down_n (n : nat) (t : thread) : thread :=
  match n with
  | O => t
  | S k => wind_down_n k (wind_down t)
  end.

(** * Properties *)

(** ** Floats *)

(** The conversion of an amount and its division by the scale factor,
    followed through the rounding of the format. *)

Lemma digits2_size m : digits2_pos m = Pos.size m.
Proof. induction m; cbn; congruence. Qed.

(** The number of binary digits of a positive number between two
    consecutive powers of two. *)
Lemma digits2_between p k :
  0 < k -> 2 ^ (k - 1) <= Z.pos p < 2 ^ k -> Z.pos (digits2_pos p) = k.
Proof.
  intros Hk [Hlow Hhigh]. rewrite digits2_size.
  pose proof (Pos.size_gt p) as Hgt. pose proof (Pos.size_le p) as Hle.
  apply Pos2Z.pos_lt_pos in Hgt. apply Pos2Z.pos_le_pos in Hle.
  rewrite Pos2Z.inj_pow in Hgt, Hle.
  set (s := Z.pos (Pos.size p)) in *.
  assert (Hs : 0 < s) by (subst s; lia).
  assert (k - 1 < s).
  { apply (Z.pow_lt_mono_r_iff 2); [lia | lia | lia]. }
  assert (s < k + 1).
  { apply (Z.pow_lt_mono_r_iff 2); [lia | lia |].
    replace (k + 1) with (Z.succ k) by lia. rewrite Z.pow_succ_r by lia. lia. }
  lia.
Qed.

Lemma digits2_shift k : forall m, digits2_pos (Pos.iter xO m k) = (digits2_pos m + k)%positive.
Proof.
  induction k using Pos.peano_ind; intros m.
  - cbn. lia.
  - rewrite Pos.iter_succ. cbn [digits2_pos]. rewrite IHk. lia.
Qed.

Lemma iter_xO_pow p : forall m, Z.pos (Pos.iter xO m p) = Z.pos m * 2 ^ Z.pos p.
Proof.
  induction p using Pos.peano_ind; intros m.
  - cbn. lia.
  - rewrite Pos.iter_succ, Pos2Z.inj_xO, IHp, Pos2Z.inj_succ, Z.pow_succ_r; lia.
Qed.

Lemma digits2_bounds m :
  2 ^ Z.pos (digits2_pos m) <= 2 * Z.pos m /\ Z.pos m < 2 ^ Z.pos (digits2_pos m).
Proof.
  rewrite digits2_size.
  pose proof (Pos.size_gt m) as Hgt. pose proof (Pos.size_le m) as Hle.
  apply Pos2Z.pos_lt_pos in Hgt. apply Pos2Z.pos_le_pos in Hle.
  rewrite Pos2Z.inj_pow in Hgt, Hle. split; lia.
Qed.


Lemma binary_round_aux_finish s m e l :
  binary_round_aux prec emax s m e l =
  let '(mrs, e') := shr_fexp prec emax m e l in
  finish s (round_nearest_even (shr_m mrs) (loc_of_shr_record mrs)) e'.
Proof. reflexivity. Qed.

Lemma shr_fexp_53 p e l :
  2 ^ 52 <= Z.pos p < 2 ^ 53 -> -1000 <= e <= 900 ->
  shr_fexp prec emax (Z.pos p) e l = (shr_record_of_loc (Z.pos p) l, e).
Proof.
  intros Hp He. unfold shr_fexp, fexp, emin, prec, emax. cbn [Zdigits2].
  rewrite (digits2_between p 53) by (cbn; lia).
  replace (Z.max (53 + e - 53) (3 - 1024 - 53) - e) with 0 by lia.
  reflexivity.
Qed.





(** An integer below 2^53 converts without rounding, to a mantissa of
    53 bits. *)
Lemma binary_round_exact s m :
  Z.pos m < 2 ^ 53 ->
  exists mz e, binary_round prec emax s m 0 = S754_finite s mz e /\
               -52 <= e <= 0 /\ Z.pos mz = Z.pos m * 2 ^ (- e) /\
               2 ^ 52 <= Z.pos mz < 2 ^ 53.
Proof.
  intros Hm. destruct (digits2_bounds m) as [Hlow Hhigh].
  set (d := digits2_pos m) in *.
  assert (Hd : Z.pos d <= 53).
  { destruct (Z.le_gt_cases (Z.pos d) 53) as [H|H]; [exact H|]. exfalso.
    assert (2 ^ 54 <= 2 ^ Z.pos d) by (apply Z.pow_le_mono_r; lia). lia. }
  assert (Hnormal : forall mz e,
             2 ^ 52 <= Z.pos mz < 2 ^ 53 -> -52 <= e <= 0 ->
             binary_round_aux 53 1024 s (Z.pos mz) e loc_Exact = S754_finite s mz e).
  { intros mz e Hmz He.
    change (binary_round_aux prec emax s (Z.pos mz) e loc_Exact = S754_finite s mz e).
    rewrite binary_round_aux_finish.
    rewrite (shr_fexp_53 mz e loc_Exact) by lia.
    cbn [shr_record_of_loc shr_m loc_of_shr_record round_nearest_even].
    unfold finish. rewrite (shr_fexp_53 mz e loc_Exact) by lia.
    cbn [shr_record_of_loc shr_m].
    replace (e <=? emax - prec) with true
      by (symmetry; apply Z.leb_le; unfold emax, prec; lia).
    reflexivity. }
  unfold binary_round, shl_align, fexp, emin, prec, emax. fold d.
  replace (Z.max (Z.pos d + 0 - 53) (3 - 1024 - 53)) with (Z.pos d - 53) by lia.
  destruct (Z.pos d - 53 - 0) as [|p|p] eqn:Hshift; try lia.
  - assert (Hd53 : Z.pos d = 53) by lia. rewrite Hd53 in Hlow, Hhigh.
    exists m, 0. rewrite Hnormal by lia.
    split; [reflexivity|]. split; [lia|]. split; [cbn; lia | lia].
  - assert (Hpow : 2 ^ Z.pos d * 2 ^ Z.pos p = 2 ^ 53).
    { rewrite <- Z.pow_add_r by lia. f_equal. lia. }
    assert (Hpos : 0 < 2 ^ Z.pos p) by (apply Z.pow_pos_nonneg; lia).
    assert (Hmz : 2 ^ 52 <= Z.pos (Pos.iter xO m p) < 2 ^ 53).
    { rewrite iter_xO_pow. nia. }
    exists (Pos.iter xO m p), (Z.pos d - 53).
    rewrite Hnormal by lia. split; [reflexivity|].
    split; [lia|]. split; [|exact Hmz].
    rewrite iter_xO_pow. f_equal. f_equal. lia.
Qed.


Lemma float_of_Z_finite n : Z.abs n < 2 ^ 53 -> finite (float_of_Z n) = true.
Proof.
  intros Hn. destruct n as [|m|m]; cbn [float_of_Z binary_normalize].
  - reflexivity.
  - now destruct (binary_round_exact false m Hn) as (mz & e & -> & _).
  - now destruct (binary_round_exact true m Hn) as (mz & e & -> & _).
Qed.

Lemma float_of_Z_exact n k :
  Z.abs n < 2 ^ 53 -> float_ge_Z (float_of_Z n) k = (k <=? n).
Proof.
  intros Hn. destruct n as [|m|m]; cbn [float_of_Z binary_normalize].
  - reflexivity.
  - destruct (binary_round_exact false m Hn) as (mz & e & -> & He & Hmz & _).
    cbn [float_ge_Z]. destruct (0 <=? e) eqn:H0.
    + apply Z.leb_le in H0. assert (e = 0) by lia. subst e.
      cbn in Hmz. rewrite Hmz. f_equal. lia.
    + rewrite Hmz.
      assert (0 < 2 ^ (- e)) by (apply Z.pow_pos_nonneg; lia).
      apply Bool.eq_true_iff_eq. rewrite !Z.leb_le. nia.
  - destruct (binary_round_exact true m Hn) as (mz & e & -> & He & Hmz & _).
    cbn [float_ge_Z]. 
    assert (Hneg : Z.neg mz = Z.neg m * 2 ^ (- e)).
    { rewrite <- !Pos2Z.opp_pos, Hmz. lia. }
    destruct (0 <=? e) eqn:H0.
    + apply Z.leb_le in H0. assert (e = 0) by lia. subst e.
      cbn in Hneg. rewrite Hneg. f_equal. lia.
    + rewrite Hneg.
      assert (0 < 2 ^ (- e)) by (apply Z.pow_pos_nonneg; lia).
      apply Bool.eq_true_iff_eq. rewrite !Z.leb_le. nia.
Qed.




(** ** Movement Detector *)

Section DetectorProperties.

Variable float_of_text : string -> option float.

Abbreviation detect := (detect_large_movements float_of_text).
Abbreviation try_tx := (detect_try float_of_text).

(** The body of the [try] only ever appends to the list it is given. *)
Lemma detect_try_appends tx threshold acc :
  try_tx tx threshold acc = (found <- try_tx tx threshold [] ;; Ok (acc ++ found)).
Proof.
  unfold detect_try.
  destruct (tx_amount float_of_text tx) as [amount|e]; cbn [bind]; [|reflexivity].
  destruct (py_ge amount threshold) as [[|]|e]; cbn [bind]; try reflexivity.
  - destruct (movement tx amount); reflexivity.
  - now rewrite app_nil_r.
Qed.

Lemma detect_loop_appends txs threshold : forall acc,
  detect_loop float_of_text txs threshold acc =
  (found <- detect_loop float_of_text txs threshold [] ;; Ok (acc ++ found)).
Proof.
  induction txs as [|tx rest IH]; intros acc; cbn [detect_loop bind].
  - now rewrite app_nil_r.
  - rewrite (detect_try_appends tx threshold acc).
    destruct (try_tx tx threshold []) as [found|e]; cbn [bind].
    + rewrite (IH (acc ++ found)), (IH found).
      destruct (detect_loop float_of_text rest threshold []); cbn [bind];
        [now rewrite app_assoc | reflexivity].
    + destruct (skipped e); [apply IH | reflexivity].
Qed.

(** What one more transaction at the front does. *)
Lemma detect_cons tx rest threshold :
  detect (tx :: rest) threshold =
  match try_tx tx threshold [] with
  | Ok found => (more <- detect rest threshold ;; Ok (found ++ more))
  | Raise e => if skipped e then detect rest threshold else Raise e
  end.
Proof.
  unfold detect_large_movements; cbn [detect_loop].
  destruct (try_tx tx threshold []) as [found|e]; [|reflexivity].
  apply detect_loop_appends.
Qed.

Lemma detect_passed_over tx threshold before after :
  passed_over float_of_text tx threshold ->
  detect (before ++ tx :: after) threshold = detect (before ++ after) threshold.
Proof.
  intros Hskip; induction before as [|tx0 before IH]; cbn [app].
  - rewrite detect_cons. destruct Hskip as [-> | (e & -> & ->)]; [|reflexivity].
    destruct (detect after threshold); reflexivity.
  - rewrite !detect_cons, IH. reflexivity.
Qed.

Lemma detect_reported tx threshold before after found :
  try_tx tx threshold [] = Ok found ->
  detect (before ++ tx :: after) threshold =
  (first <- detect before threshold ;;
   last <- detect after threshold ;;
   Ok (first ++ found ++ last)).
Proof.
  intros Hfound; induction before as [|tx0 before IH]; cbn [app].
  - rewrite detect_cons, Hfound. reflexivity.
  - rewrite !detect_cons, IH.
    destruct (try_tx tx0 threshold []) as [found0|e];
      [|destruct (skipped e); reflexivity].
    destruct (detect before threshold) as [first|e]; cbn [bind]; [|reflexivity].
    destruct (detect after threshold) as [last|e]; cbn [bind]; [|reflexivity].
    now rewrite app_assoc.
Qed.

(** *** Transactions the chain of line 48 can read *)

Lemma reaches_object tx v : reaches tx v -> exists d, tx = PDict d.
Proof.
  unfold reaches, tx_value. destruct tx; cbn; try discriminate. eauto.
Qed.

Lemma movement_of_reached tx v amount :
  reaches tx v ->
  movement tx amount =
  Ok (PDict [("tx_hash", item "hash" tx); ("amount", PFloat amount);
             ("from", item "from_address" (PDict v));
             ("to", item "to_address" (PDict v)); ("time", item "time" tx)]).
Proof.
  intros Hv. destruct (reaches_object _ _ Hv) as [d ->].
  unfold movement. rewrite Hv. cbn [py_get bind item].
  reflexivity.
Qed.

Lemma int_to_float_finite raw :
  finite (float_of_Z raw) = true -> int_to_float raw = Ok (float_of_Z raw).
Proof.
  unfold int_to_float. destruct (float_of_Z raw); cbn [finite];
    intros; reflexivity || discriminate.
Qed.

Lemma tx_amount_well_formed tx raw :
  well_formed tx raw ->
  raw_amount tx = raw /\ tx_amount float_of_text tx = Ok (display_amount tx).
Proof.
  intros (v & Hv & Hraw & Hfin).
  assert (Hr : raw_amount tx = raw) by (unfold raw_amount; now rewrite Hv, Hraw).
  split; [exact Hr|].
  unfold tx_amount, display_amount. rewrite Hr, Hv. cbn [bind py_get].
  rewrite Hraw. cbn [py_float]. now rewrite (int_to_float_finite _ Hfin).
Qed.

(** Every amount below 2^53 smallest units is within range. *)
Lemma well_formed_below_2_53 tx v raw :
  reaches tx v -> lookup "amount" v = Some (PInt raw) -> Z.abs raw < 2 ^ 53 ->
  well_formed tx raw.
Proof.
  intros Hv Hraw Hsmall. exists v. auto using float_of_Z_finite.
Qed.

Lemma alert_of_reached tx v :
  reaches tx v ->
  alert tx =
  PDict [("tx_hash", item "hash" tx); ("amount", PFloat (display_amount tx));
         ("from", item "from_address" (PDict v));
         ("to", item "to_address" (PDict v)); ("time", item "time" tx)].
Proof. intros Hv. unfold alert. now rewrite Hv. Qed.

Lemma py_ge_numeric x threshold :
  numeric threshold = true -> exists large, py_ge x threshold = Ok large.
Proof. destruct threshold; cbn; try discriminate; eauto. Qed.

(** The body of the [try] on a well-formed transaction: its alert when
    the amount reaches the threshold, nothing otherwise. *)
Lemma detect_try_well_formed tx raw threshold :
  well_formed tx raw -> numeric threshold = true ->
  try_tx tx threshold [] =
  Ok (if reaches_threshold threshold tx then [alert tx] else []).
Proof.
  intros Hwf Hnum.
  destruct (tx_amount_well_formed tx raw Hwf) as [_ Hamount].
  destruct Hwf as (v & Hv & _).
  unfold detect_try, reaches_threshold. rewrite Hamount. cbn [bind].
  destruct (py_ge_numeric (display_amount tx) threshold Hnum) as [large ->].
  cbn [bind]. destruct large; [|reflexivity].
  rewrite (movement_of_reached tx v _ Hv), (alert_of_reached tx v Hv).
  reflexivity.
Qed.


(** *** Missing and malformed fields *)

Lemma py_float_caught a :
  (forall n, a = PInt n -> finite (float_of_Z n) = true) ->
  (exists x, py_float float_of_text a = Ok x) \/
  (exists e, py_float float_of_text a = Raise e /\ skipped e = true).
Proof.
  intros Hrange. destruct a as [ |b|n|x|s|l|d]; cbn [py_float]; eauto.
  - left. rewrite (int_to_float_finite n (Hrange n eq_refl)). eauto.
  - destruct (float_of_text s); eauto.
Qed.

Lemma py_ge_caught x threshold :
  (exists large, py_ge x threshold = Ok large) \/ py_ge x threshold = Raise TypeError.
Proof. destruct threshold; cbn; eauto. Qed.

(** On a transaction the chain can read, the body of the [try] ends
    normally or with an exception the [except] clause catches. *)
Lemma detect_try_caught tx v threshold :
  reaches tx v -> in_range v ->
  (exists found, try_tx tx threshold [] = Ok found) \/
  (exists e, try_tx tx threshold [] = Raise e /\ skipped e = true).
Proof.
  intros Hv Hrange. unfold detect_try, tx_amount. rewrite Hv. cbn [bind py_get].
  destruct (py_float_caught
              (match lookup "amount" v with Some a => a | None => PInt 0 end))
    as [[x ->] | (e & -> & He)]; cbn [bind].
  - intros n Hn. destruct (lookup "amount" v) as [a|] eqn:Ha.
    + subst a. now apply Hrange.
    + injection Hn as <-. reflexivity.
  - destruct (py_ge_caught (to_display x) threshold) as [[large ->] | ->];
      cbn [bind]; [|right; eauto].
    destruct large; [|eauto].
    rewrite (movement_of_reached tx v _ Hv). cbn [bind]. eauto.
  - right; eauto.
Qed.

Lemma detect_never_raises txs threshold :
  Forall (fun tx => exists v, reaches tx v /\ in_range v) txs ->
  exists found, detect txs threshold = Ok found.
Proof.
  induction 1 as [|tx rest (v & Hv & Hrange) _ [more IH]].
  - now exists [].
  - rewrite detect_cons, IH.
    destruct (detect_try_caught tx v threshold Hv Hrange)
      as [[found ->] | (e & -> & ->)]; cbn [bind]; eauto.
Qed.

Lemma zero_below_positive threshold :
  positive threshold -> py_ge (S754_zero false) threshold = Ok false.
Proof.
  destruct threshold as [ |b|n|y|s|l|d]; cbn [positive py_ge]; try contradiction.
  - intros ->. reflexivity.
  - intros Hn. cbn [float_ge_Z]. f_equal. now apply Z.leb_gt.
  - intros Hy. f_equal. destruct y as [s|[|]| |[|] m e]; cbn in Hy |- *;
      congruence.
Qed.

Lemma display_of_zero : to_display (float_of_Z 0) = S754_zero false.
Proof. reflexivity. Qed.

Lemma tx_amount_absent tx v :
  reaches tx v -> lookup "amount" v = None ->
  tx_amount float_of_text tx = Ok (S754_zero false).
Proof.
  intros Hv Hnone. unfold tx_amount. rewrite Hv. cbn [bind py_get].
  rewrite Hnone. reflexivity.
Qed.

Lemma absent_amount_passed_over tx v threshold :
  reaches tx v -> lookup "amount" v = None -> positive threshold ->
  try_tx tx threshold [] = Ok [].
Proof.
  intros Hv Hnone Hpos. unfold detect_try.
  rewrite (tx_amount_absent tx v Hv Hnone). cbn [bind].
  now rewrite (zero_below_positive threshold Hpos).
Qed.

Lemma malformed_amount_passed_over tx v a threshold :
  reaches tx v -> lookup "amount" v = Some a -> not_a_number float_of_text a ->
  exists e, try_tx tx threshold [] = Raise e /\ skipped e = true.
Proof.
  intros Hv Ha Hnan. unfold detect_try, tx_amount. rewrite Hv. cbn [bind py_get].
  rewrite Ha. destruct Hnan as [-> | ->]; cbn [bind]; eauto.
Qed.

(** *** The claims on the detector *)


(** C2, as amended.  On transactions the detector can read (objects
    whose [stdTx], [msg] and [value], where present, are objects, the
    amount no integer beyond the range of a float)
    [detect_large_movements] raises nothing, whatever is missing.  A
    transaction without amount (under a threshold above zero) or with
    an amount that is not a number is left out of the output.  A
    transaction that lacks only [to_address] or [from_address] is not
    left out when its amount reaches the threshold: its alert carries
    [None] in the place of the address. *)
Theorem detect_tolerates_missing_fields :
  (forall txs threshold,
      Forall (fun tx => exists v, reaches tx v /\ in_range v) txs ->
      exists found, detect txs threshold = Ok found) /\
  (forall tx v threshold before after,
      reaches tx v ->
      (lookup "amount" v = None /\ positive threshold) \/
      (exists a, lookup "amount" v = Some a /\ not_a_number float_of_text a) ->
      detect (before ++ tx :: after) threshold =
      detect (before ++ after) threshold) /\
  (forall tx raw v threshold before after,
      well_formed tx raw -> reaches tx v -> numeric threshold = true ->
      reaches_threshold threshold tx = true ->
      detect (before ++ tx :: after) threshold =
      (first <- detect before threshold ;;
       last <- detect after threshold ;;
       Ok (first ++ [alert tx] ++ last)) /\
      (lookup "to_address" v = None -> item "to" (alert tx) = PNone) /\
      (lookup "from_address" v = None -> item "from" (alert tx) = PNone)).
Proof.
  split; [exact detect_never_raises|]. split.
  - intros tx v threshold before after Hv [[Hnone Hpos] | (a & Ha & Hnan)];
      apply detect_passed_over.
    + left. now apply absent_amount_passed_over with v.
    + right. now apply malformed_amount_passed_over with v a.
  - intros tx raw v threshold before after Hwf Hv Hnum Hlarge. split.
    + apply detect_reported.
      rewrite (detect_try_well_formed tx raw threshold Hwf Hnum).
      now rewrite Hlarge.
    + rewrite (alert_of_reached tx v Hv). cbn [item lookup String.eqb].
      split; intros ->; reflexivity.
Qed.

(** C10.  A transaction without [amount] is read as one of amount 0:
    line 48 takes the default 0 and computes 0.0 from it, the amount
    it computes when the amount 0 is written out, and from there on
    nothing but the comparison of line 49 decides, under every
    threshold: the body of the [try] appends the alert, with amount
    0.0, when [0.0 >= threshold] holds, appends nothing when it fails,
    and raises when it raises.  So under every threshold above zero
    the transaction adds no alert to the output, and under an integer
    threshold of zero or below it is reported, with amount 0.0, at
    its place. *)
Theorem absent_amount_counts_as_zero :
  forall tx v before after,
    reaches tx v -> lookup "amount" v = None ->
    py_get (PDict v) "amount" (PInt 0) = Ok (PInt 0) /\
    tx_amount float_of_text tx = Ok (to_display (float_of_Z 0)) /\
    (forall tx' v',
        reaches tx' v' -> lookup "amount" v' = Some (PInt 0) ->
        tx_amount float_of_text tx' = tx_amount float_of_text tx) /\
    item "amount" (alert tx) = PFloat (S754_zero false) /\
    (forall threshold found,
        try_tx tx threshold found =
        (large <- py_ge (to_display (float_of_Z 0)) threshold ;;
         Ok (if large : bool then found ++ [alert tx] else found))) /\
    (forall threshold,
        positive threshold ->
        py_ge (to_display (float_of_Z 0)) threshold = Ok false /\
        try_tx tx threshold [] = Ok [] /\
        detect (before ++ tx :: after) threshold =
        detect (before ++ after) threshold) /\
    (forall n,
        n <= 0 ->
        py_ge (to_display (float_of_Z 0)) (PInt n) = Ok true /\
        detect (before ++ tx :: after) (PInt n) =
        (first <- detect before (PInt n) ;;
         last <- detect after (PInt n) ;;
         Ok (first ++ [alert tx] ++ last))).
Proof.
  intros tx v before after Hv Hnone.
  assert (Hamount : tx_amount float_of_text tx = Ok (to_display (float_of_Z 0)))
    by now apply tx_amount_absent with v.
  assert (Hraw : raw_amount tx = 0) by (unfold raw_amount; now rewrite Hv, Hnone).
  assert (Halert : movement tx (to_display (float_of_Z 0)) = Ok (alert tx)).
  { rewrite (movement_of_reached tx v _ Hv), (alert_of_reached tx v Hv).
    unfold display_amount. now rewrite Hraw. }
  assert (Htry : forall threshold found,
             try_tx tx threshold found =
             (large <- py_ge (to_display (float_of_Z 0)) threshold ;;
              Ok (if large : bool then found ++ [alert tx] else found))).
  { intros threshold found. unfold detect_try. rewrite Hamount. cbn [bind].
    destruct (py_ge (to_display (float_of_Z 0)) threshold) as [[|]|e]; cbn [bind];
      [now rewrite Halert | reflexivity | reflexivity]. }
  split; [cbn [py_get]; now rewrite Hnone|].
  split; [exact Hamount|].
  split.
  { intros tx' v' Hv' Hzero. rewrite Hamount. unfold tx_amount.
    rewrite Hv'. cbn [bind py_get]. now rewrite Hzero. }
  split.
  { rewrite (alert_of_reached tx v Hv). unfold display_amount. now rewrite Hraw. }
  split; [exact Htry|].
  split.
  - intros threshold Hpos.
    split; [now apply zero_below_positive|].
    split; [now apply absent_amount_passed_over with v|].
    apply detect_passed_over. left. now apply absent_amount_passed_over with v.
  - intros n Hn.
    assert (Hge : py_ge (to_display (float_of_Z 0)) (PInt n) = Ok true).
    { rewrite display_of_zero. cbn [py_ge float_ge_Z]. f_equal. now apply Z.leb_le. }
    split; [exact Hge|].
    apply detect_reported. rewrite Htry, Hge. reflexivity.
Qed.

End DetectorProperties.

(** *** The detector on concrete transactions *)

(** No text is parsed on these inputs: the result is the same under
    every parser. *)
Lemma missing_receiver_reported_under_any_parser float_of_text :
  detect_large_movements float_of_text [tx_without_receiver] default_threshold =
  Ok [PDict [("tx_hash", PStr "abc123"); ("amount", PFloat (float_of_Z 150000));
             ("from", PStr "0x1111..."); ("to", PNone); ("time", PNone)]].
Proof. vm_compute. reflexivity. Qed.

(** C2 as stated fails: the transaction lacks [to_address], and the
    output holds an alert for it. *)
Lemma missing_receiver_is_not_omitted :
  detect_large_movements no_numbers [tx_without_receiver] default_threshold =
  Ok [PDict [("tx_hash", PStr "abc123"); ("amount", PFloat (float_of_Z 150000));
             ("from", PStr "0x1111..."); ("to", PNone); ("time", PNone)]].
Proof. exact (missing_receiver_reported_under_any_parser no_numbers). Qed.

(** Outside the amended claim: a member that is present and no object
    ([null] for [stdTx]), or an integer beyond the floats, raises an
    exception the [except] clause does not name. *)
Lemma null_member_raises float_of_text :
  detect_large_movements float_of_text [PDict [("stdTx", PNone)]] default_threshold =
  Raise AttributeError.
Proof. reflexivity. Qed.

Lemma huge_amount_raises float_of_text :
  detect_large_movements float_of_text
    [PDict [("stdTx", PDict [("msg", PDict [("value", PDict [
               ("amount", PInt (10 ^ 400))])])])]] default_threshold =
  Raise OverflowError.
Proof. vm_compute. reflexivity. Qed.


(** The three parts of the amended C2 at the three transactions above. *)
Lemma detect_tolerates_missing_fields_witness :
  (exists found,
      detect_large_movements no_numbers
        [tx_without_receiver; tx_amount_none; tx_bare] default_threshold = Ok found) /\
  detect_large_movements no_numbers
    ([tx_without_receiver] ++ tx_amount_none :: [tx_bare]) default_threshold =
  detect_large_movements no_numbers ([tx_without_receiver] ++ [tx_bare])
    default_threshold /\
  detect_large_movements no_numbers
    ([tx_without_receiver] ++ tx_bare :: []) default_threshold =
  detect_large_movements no_numbers ([tx_without_receiver] ++ [])
    default_threshold /\
  item "to" (alert tx_without_receiver) = PNone.
Proof.
  destruct (detect_tolerates_missing_fields no_numbers) as (Hok & Hout & Hkept).
  split; [|split; [|split]].
  - apply Hok. repeat constructor.
    + exists [("amount", PInt 150000000000); ("from_address", PStr "0x1111...")].
      split; [reflexivity|]. intros n Hn. injection Hn as <-. vm_compute. reflexivity.
    + exists [("amount", PNone); ("from_address", PStr "0x1111...");
              ("to_address", PStr "0x1234...")].
      split; [reflexivity|]. intros n Hn. discriminate Hn.
    + exists []. split; [reflexivity|]. intros n Hn. discriminate Hn.
  - apply Hout with (v := [("amount", PNone); ("from_address", PStr "0x1111...");
                           ("to_address", PStr "0x1234...")]).
    + reflexivity.
    + right. exists PNone. split; [reflexivity|]. right. reflexivity.
  - apply Hout with (v := []).
    + reflexivity.
    + left. split; [reflexivity|]. simpl. lia.
  - refine (proj1 (proj2 (Hkept tx_without_receiver 150000000000
              [("amount", PInt 150000000000); ("from_address", PStr "0x1111...")]
              default_threshold [] [] _ _ _ _)) _).
    + exists [("amount", PInt 150000000000); ("from_address", PStr "0x1111...")].
      repeat split; vm_compute; reflexivity.
    + reflexivity.
    + reflexivity.
    + vm_compute. reflexivity.
    + reflexivity.
Defined.

(** C10 at a transaction that has a hash and nothing else: passed
    over under the default threshold, reported with amount 0.0 under
    the threshold 0. *)
Lemma absent_amount_counts_as_zero_witness :
  tx_amount no_numbers tx_bare = Ok (to_display (float_of_Z 0)) /\
  detect_large_movements no_numbers ([tx_without_receiver] ++ tx_bare :: [])
    default_threshold =
  detect_large_movements no_numbers ([tx_without_receiver] ++ []) default_threshold /\
  detect_large_movements no_numbers ([tx_without_receiver] ++ tx_bare :: []) (PInt 0) =
  (first <- detect_large_movements no_numbers [tx_without_receiver] (PInt 0) ;;
   last <- detect_large_movements no_numbers [] (PInt 0) ;;
   Ok (first ++ [alert tx_bare] ++ last)) /\
  item "amount" (alert tx_bare) = PFloat (S754_zero false).
Proof.
  destruct (absent_amount_counts_as_zero no_numbers tx_bare []
              [tx_without_receiver] [])
    as (_ & Hzero & _ & Halert & _ & Habove & Hbelow).
  - reflexivity.
  - reflexivity.
  - split; [exact Hzero|]. split; [|split; [|exact Halert]].
    + apply (Habove default_threshold). simpl. lia.
    + apply (Hbelow 0). lia.
Defined.

(** ** Address Classifier *)

Lemma lookup_absent key (d : dict) :
  ~ In key (map fst d) -> lookup key d = None.
Proof.
  induction d as [|[k v] rest IH]; cbn [lookup map fst In]; [reflexivity|].
  intros Hout. destruct (String.eqb_spec k key) as [->|_].
  - exfalso. apply Hout. now left.
  - apply IH. intros Hin. apply Hout. now right.
Qed.

(** C6.  [check_exchange_wallet] returns a label for every address and
    raises nothing; the label is a function of the address alone, the
    table being a constant of the program; and an address that is no
    key of the table is labelled "Unknown". *)
Theorem classify_total_deterministic :
  forall address : string,
    (exists label, check_exchange_wallet (PStr address) = Ok (PStr label)) /\
    (forall again : string,
        again = address ->
        check_exchange_wallet (PStr again) = check_exchange_wallet (PStr address)) /\
    (~ In address (map fst known_exchanges) ->
     check_exchange_wallet (PStr address) = Ok (PStr "Unknown")) /\
    (address = "0x1234..." -> check_exchange_wallet (PStr address) = Ok (PStr "Binance")) /\
    (address = "0x5678..." -> check_exchange_wallet (PStr address) = Ok (PStr "Coinbase")).
Proof.
  intros address. split; [|split; [|split; [|split]]].
  - cbn [check_exchange_wallet known_exchanges lookup].
    destruct (String.eqb "0x1234..." address); [eauto|].
    destruct (String.eqb "0x5678..." address); eauto.
  - intros again ->. reflexivity.
  - intros Hout. cbn [check_exchange_wallet]. now rewrite (lookup_absent _ _ Hout).
  - intros ->. reflexivity.
  - intros ->. reflexivity.
Qed.

(** C6 at an address the table does not hold. *)
Lemma classify_total_deterministic_witness :
  check_exchange_wallet (PStr "0x9999...") = Ok (PStr "Unknown").
Proof.
  apply (proj1 (proj2 (proj2 (classify_total_deterministic "0x9999...")))).
  simpl. intros [H | [H | []]]; discriminate H.
Defined.

(** An address that is no text is classified too, unless it cannot be
    hashed. *)
Lemma classify_missing_address : check_exchange_wallet PNone = Ok (PStr "Unknown").
Proof. reflexivity. Qed.

Lemma classify_list_raises l : check_exchange_wallet (PList l) = Raise TypeError.
Proof. reflexivity. Qed.

(** ** News Watcher *)

Lemma lower_app a b : lower (a ++ b)%string = (lower a ++ lower b)%string.
Proof. induction a as [|c a IH]; cbn; [reflexivity | now rewrite IH]. Qed.

(** A split of the lowered text is the lowering of a split. *)
Lemma lower_split t : forall a b,
  lower t = (a ++ b)%string ->
  exists a' b', t = (a' ++ b')%string /\ lower a' = a /\ lower b' = b.
Proof.
  induction t as [|c t IH]; intros a b Heq.
  - destruct a; [|discriminate]. destruct b; [|discriminate].
    now exists EmptyString, EmptyString.
  - destruct a as [|ca a].
    + exists EmptyString, (String c t). auto.
    + cbn in Heq. injection Heq as Hc Ht.
      destruct (IH a b Ht) as (a' & b' & -> & <- & <-).
      exists (String c a'), b'. cbn. now rewrite Hc.
Qed.

Lemma prefix_spec needle : forall haystack,
  String.prefix needle haystack = true <->
  exists after, haystack = (needle ++ after)%string.
Proof.
  induction needle as [|c needle IH]; intros [|c' haystack]; cbn [String.prefix].
  - split; [intros _; now exists EmptyString | reflexivity].
  - split; [intros _; now exists (String c' haystack) | reflexivity].
  - split; [discriminate | intros [after Heq]; discriminate].
  - destruct (Ascii.ascii_dec c c') as [<-|Hne].
    + rewrite IH. split; intros [after Heq]; exists after.
      * cbn. now rewrite Heq.
      * cbn in Heq. now injection Heq.
    + split; [discriminate|]. intros [after Heq]. cbn in Heq.
      injection Heq as Hc _. now destruct Hne.
Qed.

Lemma contains_spec needle : forall haystack,
  contains needle haystack = true <->
  exists before after, haystack = (before ++ needle ++ after)%string.
Proof.
  induction haystack as [|c haystack IH]; cbn [contains];
    rewrite orb_true_iff, prefix_spec.
  - split.
    + intros [[after Heq] | Hfalse]; [|discriminate].
      now exists EmptyString, after.
    + intros (before & after & Heq). left.
      destruct before; [now exists after | discriminate].
  - rewrite IH. split.
    + intros [[after Heq] | (before & after & Heq)].
      * now exists EmptyString, after.
      * exists (String c before), after. cbn. now rewrite Heq.
    + intros (before & after & Heq). destruct before as [|c' before].
      * left. now exists after.
      * right. cbn in Heq. injection Heq as _ Heq. now exists before, after.
Qed.

(** The test of line 75 holds exactly for the titles that contain a
    keyword in some mix of cases. *)
Lemma contains_lower_mentions keyword t :
  contains keyword (lower t) = true <-> mentions keyword t.
Proof.
  rewrite contains_spec. split.
  - intros (before & after & Heq).
    destruct (lower_split _ _ _ Heq) as (before' & rest & -> & _ & Hrest).
    destruct (lower_split _ _ _ Hrest) as (mid & after' & -> & Hmid & _).
    now exists before', mid, after'.
  - intros (before & mid & after & -> & <-).
    exists (lower before), (lower after). now rewrite !lower_app.
Qed.

Lemma matches_relevant t : matches t = true <-> relevant t.
Proof.
  unfold matches, relevant.
  now rewrite orb_true_iff, !contains_lower_mentions.
Qed.

Lemma scan_entries_first before : forall e after t l,
  Forall irrelevant before -> complete e t l -> relevant t ->
  scan_entries (before ++ e :: after) = Ok (Some (news_text t l)).
Proof.
  induction before as [|e0 before IH]; intros e after t l Hbefore [Ht Hl] Hrel;
    cbn [app scan_entries].
  - rewrite Ht, Hl. cbn [attribute bind].
    apply matches_relevant in Hrel. unfold matches in Hrel. now rewrite Hrel.
  - inversion Hbefore as [|? ? (t0 & Ht0 & Hirr) Hrest]; subst.
    rewrite Ht0. cbn [attribute bind].
    destruct (matches t0) eqn:Hm; [now apply matches_relevant in Hm|].
    unfold matches in Hm. rewrite Hm. now apply IH.
Qed.

Lemma scan_entries_none entries :
  Forall irrelevant entries -> scan_entries entries = Ok None.
Proof.
  induction 1 as [|e rest (t & Ht & Hirr) _ IH]; cbn [scan_entries]; [reflexivity|].
  rewrite Ht. cbn [attribute bind].
  destruct (matches t) eqn:Hm; [now apply matches_relevant in Hm|].
  unfold matches in Hm. now rewrite Hm.
Qed.

(** A text the scan returns comes from the first relevant entry, a
    complete one, behind entries with a title. *)
Lemma scan_entries_found entries : forall found,
  scan_entries entries = Ok (Some found) ->
  exists before e after t l,
    entries = before ++ e :: after /\ Forall irrelevant before /\
    complete e t l /\ relevant t /\ found = news_text t l.
Proof.
  induction entries as [|e rest IH]; intros found Hfound; cbn [scan_entries] in Hfound.
  - discriminate.
  - destruct (title e) as [t|] eqn:Ht; cbn [attribute bind] in Hfound; [|discriminate].
    fold (matches t) in Hfound. destruct (matches t) eqn:Hm.
    + destruct (link e) as [l|] eqn:Hl; cbn [attribute bind] in Hfound; [|discriminate].
      injection Hfound as <-. exists [], e, rest, t, l.
      split; [reflexivity|]. split; [constructor|]. split; [now split|].
      split; [now apply matches_relevant | reflexivity].
    + destruct (IH found Hfound) as (before & e' & after & t' & l' & -> & Hirr & He & Hr & ->).
      exists (e :: before), e', after, t', l'.
      split; [reflexivity|].
      split; [|split; [exact He|split; [exact Hr|reflexivity]]].
      constructor; [|exact Hirr]. exists t. split; [exact Ht|].
      intros Hrel. apply matches_relevant in Hrel. congruence.
Qed.

(** An entry that lacks what the scan reads of it ends the scan with
    [AttributeError]. *)
Lemma scan_entries_missing before : forall e after,
  Forall irrelevant before ->
  title e = None \/ (exists t, title e = Some t /\ relevant t /\ link e = None) ->
  scan_entries (before ++ e :: after) = Raise AttributeError.
Proof.
  induction before as [|e0 before IH]; intros e after Hbefore Hmissing;
    cbn [app scan_entries].
  - destruct Hmissing as [-> | (t & -> & Hrel & ->)]; cbn [attribute bind];
      [reflexivity|].
    apply matches_relevant in Hrel. unfold matches in Hrel. now rewrite Hrel.
  - inversion Hbefore as [|? ? (t0 & Ht0 & Hirr) Hrest]; subst.
    rewrite Ht0. cbn [attribute bind].
    destruct (matches t0) eqn:Hm; [now apply matches_relevant in Hm|].
    unfold matches in Hm. rewrite Hm. now apply IH.
Qed.

(** Every list of entries is of one of three kinds: no entry is
    relevant and all have a title; or the first entry that is not such
    an entry is relevant with title and link; or it lacks its title,
    or is relevant and lacks its link. *)
Lemma entries_cases entries :
  Forall irrelevant entries \/
  exists before e after,
    entries = before ++ e :: after /\ Forall irrelevant before /\
    ((exists t l, complete e t l /\ relevant t) \/
     title e = None \/
     (exists t, title e = Some t /\ relevant t /\ link e = None)).
Proof.
  induction entries as [|e rest IH]; [left; constructor|].
  destruct (title e) as [t|] eqn:Ht.
  - destruct (matches t) eqn:Hm.
    + apply matches_relevant in Hm. right. exists [], e, rest.
      split; [reflexivity|]. split; [constructor|].
      destruct (link e) as [l|] eqn:Hl.
      * left. exists t, l. split; [now split | exact Hm].
      * right. right. exists t. auto.
    + assert (Hirr : irrelevant e).
      { exists t. split; [exact Ht|]. intros Hrel.
        apply matches_relevant in Hrel. congruence. }
      destruct IH as [Hall | (before & e' & after & -> & Hbefore & Hkind)].
      * left. now constructor.
      * right. exists (e :: before), e', after.
        split; [reflexivity|]. split; [now constructor | exact Hkind].
  - right. exists [], e, rest. split; [reflexivity|]. split; [constructor|].
    right. now left.
Qed.

(** C7, as amended.  [fetch_migration_news] looks at the first five
    entries of the feed only, in feed order, reading the title of each
    and the link of the first whose title contains "shannon" or
    "upgrade" in any mix of cases.  It returns the text built from
    that entry exactly when the entries before it have a title and the
    entry has a link.  It returns nothing when none of the five is
    relevant, all having a title; when an entry lacks what is read of
    it (no title, at or before the first relevant entry, or a first
    relevant entry without link), whatever comes after it; and when
    the fetch raised.  Every feed is of one of these kinds, and the
    check raises nothing itself. *)
Theorem news_is_first_relevant_of_five :
  (forall entries,
      migration_news (Ok entries) = migration_news (Ok (firstn 5 entries))) /\
  (forall entries before e after t l,
      firstn 5 entries = before ++ e :: after ->
      Forall irrelevant before -> complete e t l -> relevant t ->
      migration_news (Ok entries) = Some (news_text t l)) /\
  (forall entries,
      Forall irrelevant (firstn 5 entries) -> migration_news (Ok entries) = None) /\
  (forall e, migration_news (Raise e) = None) /\
  (forall feed w,
      fetch_migration_news feed w =
      (Ok (migration_news (feed (feed_reads w))), feed_read w)) /\
  (forall l1 l2,
      migration_news
        (Ok [{| title := Some "Shannon mainnet launch"; link := Some l1 |};
             {| title := Some "Unrelated update"; link := Some l2 |}]) =
      Some (news_text "Shannon mainnet launch" l1)) /\
  (forall parsed found,
      migration_news parsed = Some found ->
      exists entries before e after t l,
        parsed = Ok entries /\ firstn 5 entries = before ++ e :: after /\
        Forall irrelevant before /\ complete e t l /\ relevant t /\
        found = news_text t l) /\
  (forall entries before e after,
      firstn 5 entries = before ++ e :: after ->
      Forall irrelevant before ->
      title e = None \/ (exists t, title e = Some t /\ relevant t /\ link e = None) ->
      migration_news (Ok entries) = None) /\
  (forall entries,
      Forall irrelevant (firstn 5 entries) \/
      exists before e after,
        firstn 5 entries = before ++ e :: after /\ Forall irrelevant before /\
        ((exists t l, complete e t l /\ relevant t) \/
         title e = None \/
         (exists t, title e = Some t /\ relevant t /\ link e = None))).
Proof.
  split; [|split; [|split; [|split; [|split; [|split; [|split; [|split]]]]]]].
  - intros entries. unfold migration_news. cbn [bind].
    now rewrite firstn_firstn.
  - intros entries before e after t l Hsplit Hbefore He Hrel.
    unfold migration_news. cbn [bind]. rewrite Hsplit.
    now rewrite (scan_entries_first before e after t l).
  - intros entries Hnone. unfold migration_news. cbn [bind].
    now rewrite (scan_entries_none _ Hnone).
  - reflexivity.
  - reflexivity.
  - reflexivity.
  - intros [entries|e] found Hfound; unfold migration_news in Hfound;
      cbn [bind] in Hfound; [|discriminate].
    destruct (scan_entries (firstn 5 entries)) as [[news|]|e] eqn:Hscan;
      try discriminate.
    injection Hfound as ->.
    destruct (scan_entries_found _ _ Hscan) as (before & e & after & t & l & H).
    exists entries, before, e, after, t, l. tauto.
  - intros entries before e after Hsplit Hbefore Hmissing.
    unfold migration_news. cbn [bind]. rewrite Hsplit.
    now rewrite (scan_entries_missing before e after Hbefore Hmissing).
  - intros entries. apply entries_cases.
Qed.

(** C7 at a feed whose second entry is the first relevant one (the
    first entry has no link, which is never read), and at the same
    feed behind an entry without title. *)
Lemma news_is_first_relevant_of_five_witness :
  migration_news
    (Ok [{| title := Some "Weekly digest"; link := None |};
         {| title := Some "Protocol UPGRADE notes"; link := Some "https://pocket.network/u" |};
         {| title := Some "Shannon mainnet launch"; link := Some "https://pocket.network/s" |}]) =
  Some (news_text "Protocol UPGRADE notes" "https://pocket.network/u") /\
  migration_news
    (Ok [{| title := None; link := Some "https://pocket.network/a" |};
         {| title := Some "Weekly digest"; link := None |};
         {| title := Some "Protocol UPGRADE notes"; link := Some "https://pocket.network/u" |}]) =
  None.
Proof.
  destruct news_is_first_relevant_of_five
    as (_ & Hfirst & _ & _ & _ & _ & _ & Hmissing & _).
  split.
  - apply Hfirst with
      (before := [{| title := Some "Weekly digest"; link := None |}])
      (e := {| title := Some "Protocol UPGRADE notes";
               link := Some "https://pocket.network/u" |})
      (after := [{| title := Some "Shannon mainnet launch";
                    link := Some "https://pocket.network/s" |}]).
    + reflexivity.
    + constructor; [|constructor]. exists "Weekly digest". split; [reflexivity|].
      intros Hrel. apply matches_relevant in Hrel. vm_compute in Hrel. discriminate Hrel.
    + split; reflexivity.
    + apply matches_relevant. vm_compute. reflexivity.
  - apply Hmissing with
      (before := [])
      (e := {| title := None; link := Some "https://pocket.network/a" |})
      (after := [{| title := Some "Weekly digest"; link := None |};
                 {| title := Some "Protocol UPGRADE notes";
                    link := Some "https://pocket.network/u" |}]).
    + reflexivity.
    + constructor.
    + left. reflexivity.
Defined.

(** C7 as stated fails: the title of an entry among the first five
    contains "shannon", and the check returns nothing, behind an entry
    without title as well as when the entry itself has no link. *)
Lemma relevant_entry_among_five_yields_no_news :
  relevant "Shannon mainnet launch" /\
  migration_news
    (Ok [{| title := None; link := Some "https://pocket.network/a" |};
         {| title := Some "Shannon mainnet launch";
            link := Some "https://pocket.network/s" |}]) = None /\
  migration_news
    (Ok [{| title := Some "Shannon mainnet launch"; link := None |}]) = None.
Proof.
  split; [apply matches_relevant; vm_compute; reflexivity|].
  split; reflexivity.
Qed.

(** The same with any link: reading the title raises, the [except]
    clause catches it, and the check returns nothing even if a later
    entry is relevant. *)
Lemma untitled_entry_hides_later_news l :
  migration_news
    (Ok [{| title := None; link := Some l |};
         {| title := Some "Shannon mainnet launch"; link := Some l |}]) = None.
Proof. reflexivity. Qed.

(** ** Notifier *)

Section BotProperties.

Variable float_of_text : string -> option float.
Variable TELEGRAM_CHAT_ID : string.
Variable telegram : nat -> result pyval.
Variable feed : nat -> result (list entry).

Abbreviation send := (send_telegram_message telegram).
Abbreviation hook := (webhook telegram).
Abbreviation next := (step float_of_text TELEGRAM_CHAT_ID telegram feed).
Abbreviation after := (run float_of_text TELEGRAM_CHAT_ID telegram feed).
Abbreviation stopped_during :=
  (stopped_throughout float_of_text TELEGRAM_CHAT_ID telegram feed).

(** Every call hands one message to the transport, whatever comes of it. *)
Lemma send_posts chat_id message w :
  snd (send chat_id message w) = posted chat_id message w.
Proof.
  unfold send_telegram_message.
  destruct (telegram (List.length (outbox w))) as [v|[]]; reflexivity.
Qed.

Lemma send_returns chat_id message w :
  transport_failure (telegram (List.length (outbox w))) ->
  exists v, fst (send chat_id message w) = Ok v.
Proof.
  unfold send_telegram_message, transport_failure.
  destruct (telegram (List.length (outbox w))) as [v|[]]; cbn; eauto; contradiction.
Qed.

(** C8.  For every destination and message, when what the transport
    raises is a transport failure (a [requests.RequestException]),
    [send_telegram_message] raises nothing: it returns the reply of
    the transport, or on failure the dict with [ok] false and the
    description of the error. *)
Theorem notify_never_raises :
  forall chat_id message w,
    transport_failure (telegram (List.length (outbox w))) ->
    (exists v, fst (send chat_id message w) = Ok v) /\
    (forall reply,
        telegram (List.length (outbox w)) = Ok reply ->
        fst (send chat_id message w) = Ok reply) /\
    (forall description,
        telegram (List.length (outbox w)) = Raise (RequestException description) ->
        fst (send chat_id message w) =
        Ok (PDict [("ok", PBool false); ("description", PStr description)])) /\
    snd (send chat_id message w) = posted chat_id message w.
Proof.
  intros chat_id message w Hfail.
  split; [now apply send_returns|].
  split; [|split; [|apply send_posts]].
  - intros reply Hreply. unfold send_telegram_message. now rewrite Hreply.
  - intros description Hraise. unfold send_telegram_message. now rewrite Hraise.
Qed.

(** An exception of another class is not caught. *)
Lemma send_propagates chat_id message w description :
  telegram (List.length (outbox w)) = Raise (Exception description) ->
  fst (send chat_id message w) = Raise (Exception description).
Proof. intros Hraise. unfold send_telegram_message. now rewrite Hraise. Qed.

(** ** Command Dispatcher *)

Ltac run_send :=
  unfold start_monitoring, reply, bindM, is_set, set_event, start_thread,
    send_telegram_message, ret; cbn [stop_event threads outbox feed_reads posted].

Lemma dispatch_replies_once chat_id txt w :
  exists message,
    outbox (snd (dispatch telegram chat_id txt w)) = outbox w ++ [(chat_id, message)].
Proof.
  unfold dispatch.
  repeat match goal with
         | |- context [if py_eq_str ?t ?s then _ else _] => destruct (py_eq_str t s)
         end;
    run_send; try destruct (negb (stop_event w)); cbn [negb outbox posted];
    destruct (telegram (List.length (outbox w))) as [v|[]];
    cbn [snd outbox posted]; eauto.
Qed.

Lemma dispatch_returns chat_id txt w :
  transport_failure (telegram (List.length (outbox w))) ->
  fst (dispatch telegram chat_id txt w) = Ok tt.
Proof.
  unfold dispatch, transport_failure.
  repeat match goal with
         | |- context [if py_eq_str ?t ?s then _ else _] => destruct (py_eq_str t s)
         end;
    run_send; try destruct (negb (stop_event w)); cbn [negb outbox posted];
    destruct (telegram (List.length (outbox w))) as [v|[]];
    cbn [fst]; intros; reflexivity || contradiction.
Qed.

(** A chat message passes the two tests of the view and is handed to
    the dispatch with its chat and text. *)
Lemma webhook_chat_message update chat_id txt w :
  chat_message update chat_id txt ->
  hook update w = (_ <~ dispatch telegram chat_id txt ;; ret ("ok", 200)) w.
Proof.
  intros [d m c -> Hm Hc Hid Htxt]. unfold webhook.
  assert (Htruthy : truthy (PDict d) = true)
    by (destruct d; [discriminate Hm | reflexivity]).
  rewrite Htruthy. cbn [negb].
  unfold bindM at 1. unfold lift at 1. cbn [py_in]. rewrite Hm.
  unfold bindM, lift. cbn [py_getitem]. rewrite Hm. cbn [py_getitem].
  rewrite Hc. cbn [py_getitem]. rewrite Hid. cbn [py_get]. rewrite Htxt.
  reflexivity.
Qed.

(** C3, as amended.  The view answers with the client error 400, and
    sends nothing, for every payload that is empty ([{}], [null], an
    empty list or string, zero, false); for an object that is not
    empty and has no [message] member it answers ok and sends
    nothing; for a chat message (a [message] object with the [id] of
    its [chat]) it answers ok after the dispatch has sent its one
    reply to that chat, when the transport fails only as a transport.
    In particular [{}] gets the client error. *)
Theorem webhook_rejects_empty_payloads :
  (forall update w,
      truthy update = false -> hook update w = (Ok ("Invalid request", 400), w)) /\
  (forall d w,
      truthy (PDict d) = true -> lookup "message" d = None ->
      hook (PDict d) w = (Ok ("ok", 200), w)) /\
  (forall update chat_id txt w,
      chat_message update chat_id txt ->
      transport_failure (telegram (List.length (outbox w))) ->
      fst (hook update w) = Ok ("ok", 200) /\
      exists message,
        outbox (snd (hook update w)) = outbox w ++ [(chat_id, message)]) /\
  (forall w, hook (PDict []) w = (Ok ("Invalid request", 400), w)).
Proof.
  split; [|split; [|split]].
  - intros update w Hempty. unfold webhook. now rewrite Hempty.
  - intros d w Hfull Hnone. unfold webhook. rewrite Hfull. cbn [negb].
    unfold bindM, lift. cbn [py_in]. now rewrite Hnone.
  - intros update chat_id txt w Hchat Hfail.
    rewrite (webhook_chat_message update chat_id txt w Hchat).
    pose proof (dispatch_returns chat_id txt w Hfail) as Hret.
    pose proof (dispatch_replies_once chat_id txt w) as [message Hout].
    unfold bindM. destruct (dispatch telegram chat_id txt w) as [r w'].
    cbn [fst snd] in *. subst r. cbn [fst snd ret]. eauto.
  - reflexivity.
Qed.

(** ** Monitor Loop *)

Lemma command_is_chat_message chat_id txt :
  chat_message (command chat_id txt) chat_id (PStr txt).
Proof.
  now apply is_chat_message with
    (d := [("update_id", PInt 1);
           ("message", PDict [("chat", PDict [("id", chat_id)]); ("text", PStr txt)])])
    (m := [("chat", PDict [("id", chat_id)]); ("text", PStr txt)])
    (c := [("id", chat_id)]).
Qed.

(** Line 150 with the event clear: the branch of line 151 is taken. *)
Lemma monitor_when_clear update chat_id w :
  chat_message update chat_id (PStr "/monitor") ->
  stop_event w = false ->
  snd (hook update w) = posted chat_id already_running w /\
  (transport_failure (telegram (List.length (outbox w))) ->
   fst (hook update w) = Ok ("ok", 200)).
Proof.
  intros Hchat Hclear.
  rewrite (webhook_chat_message update chat_id _ w Hchat).
  unfold dispatch, transport_failure; cbn [py_eq_str String.eqb Ascii.eqb Bool.eqb].
  run_send. rewrite Hclear. cbn [negb].
  destruct (telegram (List.length (outbox w))) as [v|[]]; cbn [fst snd];
    split; try reflexivity; intros; reflexivity || contradiction.
Qed.

(** C1.  What the program does at the input the claim is about.  When
    the process starts the event is clear and no thread runs; the
    first [/monitor] finds the event clear at line 150, answers that
    the monitoring is already running, starts no thread and leaves no
    loop in the process. *)
Theorem first_start_command_is_refused :
  forall chat_id,
    stop_event initial = false /\
    threads initial = [] /\
    snd (hook (command chat_id "/monitor") initial) =
    posted chat_id already_running initial /\
    active_loops (snd (hook (command chat_id "/monitor") initial)) = 0%nat.
Proof.
  intros chat_id.
  destruct (monitor_when_clear (command chat_id "/monitor") chat_id initial
              (command_is_chat_message chat_id "/monitor") eq_refl) as [Hsnd _].
  rewrite Hsnd. repeat split; reflexivity.
Qed.


(** Lines 153-155 clear the event, start a thread and reply. *)
Lemma start_monitoring_world chat_id w :
  snd (start_monitoring telegram chat_id w) =
  posted chat_id monitoring_started
    {| stop_event := false;
       threads := threads w ++ [{| at_pc := Polling; cycles := 0 |}];
       outbox := outbox w; feed_reads := feed_reads w |}.
Proof.
  run_send. destruct (telegram (List.length (outbox w))) as [v|[]]; reflexivity.
Qed.

(** Two requests handled at once: each passes the test of line 150
    before the other has cleared the event, and each starts a thread. *)
Lemma two_starts_at_once c1 c2 w :
  stop_event w = true ->
  let found1 := fst (is_set w) in
  let found2 := fst (is_set (snd (is_set w))) in
  let w' := snd (start_monitoring telegram c2
                   (snd (start_monitoring telegram c1 (snd (is_set (snd (is_set w))))))) in
  found1 = Ok true /\ found2 = Ok true /\
  threads w' = threads w ++ [{| at_pc := Polling; cycles := 0 |};
                             {| at_pc := Polling; cycles := 0 |}] /\
  outbox w' = outbox w ++ [(c1, monitoring_started); (c2, monitoring_started)].
Proof.
  intros Hset. cbv zeta. rewrite !start_monitoring_world.
  unfold is_set. cbn [fst snd posted threads outbox]. rewrite Hset.
  rewrite <- !app_assoc. repeat split; reflexivity.
Qed.

(** *** Threads under requests and under their own steps *)

(** A request never touches a thread that exists: it leaves the
    threads alone or starts one more. *)
Lemma dispatch_threads chat_id txt w :
  exists extra, threads (snd (dispatch telegram chat_id txt w)) = threads w ++ extra.
Proof.
  unfold dispatch.
  repeat match goal with
         | |- context [if py_eq_str ?t ?s then _ else _] => destruct (py_eq_str t s)
         end;
    run_send; try destruct (negb (stop_event w)); cbn [negb outbox posted];
    destruct (telegram (List.length (outbox w))) as [v|[]];
    cbn [snd threads posted];
    solve [now exists [] ; rewrite app_nil_r | eauto].
Qed.

Lemma webhook_threads update w :
  exists extra, threads (snd (hook update w)) = threads w ++ extra.
Proof.
  assert (Hsame : exists extra, threads w = threads w ++ extra)
    by (exists []; now rewrite app_nil_r).
  unfold webhook. destruct (negb (truthy update)); [exact Hsame|].
  unfold bindM, lift.
  destruct (py_in "message" update) as [[|]|e]; cbn [snd]; try exact Hsame.
  destruct (py_getitem update "message") as [m|e]; cbn [snd]; try exact Hsame.
  destruct (py_getitem m "chat") as [c|e]; cbn [snd]; try exact Hsame.
  destruct (py_getitem c "id") as [chat_id|e]; cbn [snd]; try exact Hsame.
  destruct (py_get m "text" (PStr "")) as [txt|e]; cbn [snd]; try exact Hsame.
  pose proof (dispatch_threads chat_id txt w) as Hd.
  destruct (dispatch telegram chat_id txt w) as [[u|e] w']; exact Hd.
Qed.

Lemma nth_error_replace_same {A} (l : list A) : forall i a t,
  nth_error l i = Some t -> nth_error (replace i a l) i = Some a.
Proof.
  induction l as [|x l IH]; intros [|i] a t; cbn; try discriminate; eauto.
Qed.

Lemma nth_error_replace_other {A} (l : list A) : forall i j a,
  i <> j -> nth_error (replace j a l) i = nth_error l i.
Proof.
  induction l as [|x l IH]; intros [|i] [|j] a Hne; cbn; try reflexivity.
  - now destruct Hne.
  - apply IH. congruence.
Qed.

(** With the event set a thread step is one of [wind_down]: no cycle
    is run, nothing is fetched and nothing is sent. *)
Lemma monitor_pokt_stopped j w :
  stop_event w = true ->
  monitor_pokt float_of_text TELEGRAM_CHAT_ID telegram feed j w =
  match nth_error (threads w) j with
  | Some t => match at_pc t with
              | Polling | Sleeping => set_thread j (wind_down t) w
              | Finished | Crashed _ => w
              end
  | None => w
  end.
Proof.
  intros Hset. unfold monitor_pokt, wind_down. rewrite Hset.
  destruct (nth_error (threads w) j) as [t|]; [|reflexivity].
  destruct (at_pc t); reflexivity.
Qed.

Lemma step_stopped ev w :
  stop_event w = true ->
  forall i t, nth_error (threads w) i = Some t ->
  nth_error (threads (next ev w)) i =
  Some (match ev with
        | Run j => if Nat.eqb i j then wind_down t else t
        | Request _ => t
        end).
Proof.
  intros Hset i t Hi. destruct ev as [update|j]; cbn [step].
  - destruct (webhook_threads update w) as [extra ->].
    rewrite nth_error_app1; [exact Hi|]. apply nth_error_Some. congruence.
  - rewrite (monitor_pokt_stopped j w Hset).
    destruct (Nat.eqb_spec i j) as [<-|Hne].
    + rewrite Hi. unfold wind_down.
      destruct (at_pc t) eqn:Hpc; cbn [set_thread threads];
        try (now apply nth_error_replace_same with t).
      * rewrite Hi. f_equal.
      * rewrite Hi. f_equal.
    + destruct (nth_error (threads w) j) as [tj|]; [|exact Hi].
      destruct (at_pc tj); cbn [set_thread threads]; try exact Hi;
        now rewrite nth_error_replace_other.
Qed.

Lemma stopped_thread_after evs : forall w i t,
  nth_error (threads w) i = Some t ->
  stopped_during evs w ->
  nth_error (threads (after evs w)) i = Some (wind_down_n (runs_of i evs) t).
Proof.
  induction evs as [|ev evs IH]; intros w i t Hi Hstop; cbn [run runs_of].
  - exact Hi.
  - destruct Hstop as [Hset Hrest]. fold stopped_throughout in Hrest.
    pose proof (step_stopped ev w Hset i t Hi) as Hstep.
    rewrite (IH _ i _ Hstep Hrest).
    destruct ev as [update|j]; [reflexivity|].
    destruct (Nat.eqb i j); reflexivity.
Qed.

Lemma wind_down_n_cycles n : forall t, cycles (wind_down_n n t) = cycles t.
Proof.
  induction n as [|n IH]; intros t; cbn [wind_down_n]; [reflexivity|].
  rewrite IH. unfold wind_down. destruct (at_pc t); reflexivity.
Qed.

Lemma wind_down_n_finished n : forall t,
  at_pc t = Finished -> at_pc (wind_down_n n t) = Finished.
Proof.
  induction n as [|n IH]; intros t Hpc; cbn [wind_down_n]; [exact Hpc|].
  apply IH. unfold wind_down. now rewrite Hpc.
Qed.

Lemma wind_down_n_polling n t :
  at_pc t = Polling -> (1 <= n)%nat -> at_pc (wind_down_n n t) = Finished.
Proof.
  intros Hpc Hn. destruct n as [|n]; [inversion Hn|]. cbn [wind_down_n].
  apply wind_down_n_finished. unfold wind_down. now rewrite Hpc.
Qed.

Lemma wind_down_n_sleeping n t :
  at_pc t = Sleeping -> (2 <= n)%nat -> at_pc (wind_down_n n t) = Finished.
Proof.
  intros Hpc Hn. destruct n as [|n]; [inversion Hn|]. cbn [wind_down_n].
  apply wind_down_n_polling.
  - unfold wind_down. now rewrite Hpc.
  - now apply le_S_n.
Qed.

(** C9, as amended.  The loop reads the event at the top of every
    pass and nowhere else.  While the event stays set (no [/monitor]
    clears it before the thread has read it) the thread runs no
    further cycle: it fetches nothing and sends nothing, and it leaves
    the loop at its next test of the event, which is its next step
    when it stands at the test and the step after the end of its
    current sleep of 300 seconds when it is asleep. *)
Theorem stopped_loop_ends_at_next_test :
  (forall evs w i t,
      nth_error (threads w) i = Some t ->
      stopped_during evs w ->
      exists t',
        nth_error (threads (after evs w)) i = Some t' /\
        cycles t' = cycles t /\
        (at_pc t = Polling -> (1 <= runs_of i evs)%nat -> at_pc t' = Finished) /\
        (at_pc t = Sleeping -> runs_of i evs = 1%nat -> at_pc t' = Polling) /\
        (at_pc t = Sleeping -> (2 <= runs_of i evs)%nat -> at_pc t' = Finished)) /\
  (forall w j,
      stop_event w = true ->
      outbox (next (Run j) w) = outbox w /\
      feed_reads (next (Run j) w) = feed_reads w /\
      stop_event (next (Run j) w) = true).
Proof.
  split.
  - intros evs w i t Hi Hstop.
    exists (wind_down_n (runs_of i evs) t).
    split; [now apply stopped_thread_after|].
    split; [apply wind_down_n_cycles|].
    split; [now apply wind_down_n_polling|].
    split; [|now apply wind_down_n_sleeping].
    intros Hpc ->. cbn [wind_down_n]. unfold wind_down. now rewrite Hpc.
  - intros w j Hset. cbn [step]. rewrite (monitor_pokt_stopped j w Hset).
    destruct (nth_error (threads w) j) as [t|]; [|auto].
    destruct (at_pc t); cbn [set_thread outbox feed_reads stop_event]; auto.
Qed.

End BotProperties.

(** *** The process on concrete runs *)

Lemma stopped_asleep_world :
  stop_event stopped_asleep = true /\
  threads stopped_asleep = [{| at_pc := Sleeping; cycles := 1 |}].
Proof. vm_compute. split; reflexivity. Qed.

(** C9 as stated fails: the event is set while thread 0 sleeps; a
    [/monitor] within the same sleep clears it again, and the thread,
    back at its test, runs a second cycle and sleeps on: it has not
    ended after its sleep, and the process now has two loops. *)
Lemma restart_within_the_sleep_revives_the_loop :
  let later := process [monitor; Run 0; Run 0] stopped_asleep in
  stop_event stopped_asleep = true /\
  nth_error (threads stopped_asleep) 0 = Some {| at_pc := Sleeping; cycles := 1 |} /\
  nth_error (threads later) 0 = Some {| at_pc := Sleeping; cycles := 2 |} /\
  active_loops later = 2%nat.
Proof. vm_compute. repeat split; reflexivity. Qed.


(** The amended C9 at the stopped process above: the sleeping thread
    wakes, a [/status] is answered, and at its next step the thread
    leaves the loop, still with its one cycle. *)
Lemma stopped_loop_ends_at_next_test_witness :
  exists t',
    nth_error (threads (process [Run 0; status; Run 0] stopped_asleep)) 0 = Some t' /\
    cycles t' = 1%nat /\ at_pc t' = Finished.
Proof.
  destruct (proj1 (stopped_loop_ends_at_next_test no_numbers chat_of_the_bot
                     delivered empty_feed)
              [Run 0; status; Run 0] stopped_asleep 0%nat
              {| at_pc := Sleeping; cycles := 1 |})
    as (t' & Ht' & Hcycles & _ & _ & Hends).
  - reflexivity.
  - vm_compute. repeat split; reflexivity.
  - exists t'. split; [exact Ht'|]. split; [exact Hcycles|].
    apply Hends; [reflexivity|]. vm_compute. reflexivity.
Defined.

(** C3 as stated fails: an update without [message] (an edited
    message, say) lacks the message structure, is answered ok, and
    nothing is sent. *)
Lemma update_without_message_is_answered_ok :
  webhook delivered (PDict [("update_id", PInt 1)]) initial = (Ok ("ok", 200), initial).
Proof. reflexivity. Qed.

(** Outside the amended claim: a [message] without [chat] raises at
    line 141, and the view ends with the exception. *)
Lemma message_without_chat_raises telegram w :
  webhook telegram (PDict [("message", PDict [])]) w = (Raise KeyError, w).
Proof. reflexivity. Qed.

(** The amended C3 at [null], at an update without message, and at a
    chat message, with a transport that times out. *)
Lemma webhook_rejects_empty_payloads_witness :
  webhook timed_out PNone initial = (Ok ("Invalid request", 400), initial) /\
  webhook timed_out (PDict [("update_id", PInt 1)]) initial = (Ok ("ok", 200), initial) /\
  fst (webhook timed_out (command (PInt 7) "hello") initial) = Ok ("ok", 200) /\
  exists message,
    outbox (snd (webhook timed_out (command (PInt 7) "hello") initial)) =
    outbox initial ++ [(PInt 7, message)].
Proof.
  destruct (webhook_rejects_empty_payloads timed_out) as (Hempty & Hother & Hchat & _).
  split; [|split].
  - apply Hempty. reflexivity.
  - apply Hother; reflexivity.
  - apply (Hchat (command (PInt 7) "hello") (PInt 7) (PStr "hello") initial).
    + now apply is_chat_message with
        (d := [("update_id", PInt 1);
               ("message", PDict [("chat", PDict [("id", PInt 7)]);
                                  ("text", PStr "hello")])])
        (m := [("chat", PDict [("id", PInt 7)]); ("text", PStr "hello")])
        (c := [("id", PInt 7)]).
    + simpl. exact I.
Defined.


(** C8 with a transport that times out. *)
Lemma notify_never_raises_witness :
  fst (send_telegram_message timed_out (PStr chat_of_the_bot) [Lit "ping"] initial) =
  Ok (PDict [("ok", PBool false); ("description", PStr "timed out")]).
Proof.
  apply (proj1 (proj2 (proj2 (notify_never_raises timed_out (PStr chat_of_the_bot)
                                [Lit "ping"] initial I)))).
  reflexivity.
Defined.

(** * Further properties *)

(** ** Movement Detector: any list, any threshold *)

Section DetectorOnAnyList.

Variable float_of_text : string -> option float.

Abbreviation detect := (detect_large_movements float_of_text).
Abbreviation try_tx := (detect_try float_of_text).

(** A batch can be cut anywhere: what the detector returns for the
    whole is what it returns for the parts, one after the other, and
    it raises where the first part that raises does. *)
Theorem detect_splits_over_append :
  forall first second threshold,
    detect_large_movements float_of_text (first ++ second) threshold =
    (found <- detect_large_movements float_of_text first threshold ;;
     more <- detect_large_movements float_of_text second threshold ;;
     Ok (found ++ more)).
Proof.
  intros first second threshold.
  induction first as [|tx first IH]; cbn [app].
  - change (detect [] threshold) with (@Ok (list pyval) []). cbn [bind].
    destruct (detect second threshold); reflexivity.
  - rewrite !detect_cons, IH.
    destruct (try_tx tx threshold []) as [found|e];
      [|destruct (skipped e); reflexivity].
    destruct (detect first threshold) as [found'|e]; cbn [bind]; [|reflexivity].
    destruct (detect second threshold) as [more|e]; cbn [bind]; [|reflexivity].
    now rewrite app_assoc.
Qed.

(** Where line 48 gets an amount the transaction is one the chain can
    read. *)
Lemma tx_amount_reaches tx x :
  tx_amount float_of_text tx = Ok x -> exists v, reaches tx v.
Proof.
  unfold tx_amount, reaches. destruct (tx_value tx) as [value|e]; cbn [bind];
    [|discriminate].
  destruct value; cbn [py_get bind]; try discriminate. eauto.
Qed.

(** The body of the [try] adds nothing or the one alert of the
    transaction, whose amount has passed the test of line 49. *)
Lemma detect_try_outcome tx threshold found :
  try_tx tx threshold [] = Ok found ->
  found = [] \/
  exists v x,
    reaches tx v /\ tx_amount float_of_text tx = Ok x /\
    py_ge x threshold = Ok true /\
    found = [PDict [("tx_hash", item "hash" tx); ("amount", PFloat x);
                    ("from", item "from_address" (PDict v));
                    ("to", item "to_address" (PDict v)); ("time", item "time" tx)]].
Proof.
  unfold detect_try.
  destruct (tx_amount float_of_text tx) as [x|e] eqn:Hamount; cbn [bind];
    [|discriminate].
  destruct (py_ge x threshold) as [[|]|e] eqn:Hge; cbn [bind]; try discriminate.
  - destruct (tx_amount_reaches tx x Hamount) as [v Hv].
    rewrite (movement_of_reached tx v x Hv). cbn [bind app].
    intros Hfound. injection Hfound as <-. right. exists v, x. auto.
  - intros Hfound. injection Hfound as <-. now left.
Qed.

(** On every list and under every threshold, what the detector
    returns is, in the order of the input, the alerts of some of the
    transactions: each alert belongs to a transaction the chain can
    read, carries its amount in display units and its members under
    the five keys, and that amount has passed [>= threshold].  So
    there are never more alerts than transactions, and none below the
    threshold. *)
Theorem detect_reports_a_subsequence :
  forall txs threshold found,
    detect txs threshold = Ok found ->
    exists reported,
      subsequence reported txs /\
      Forall2 (fun tx a =>
                 exists v x,
                   reaches tx v /\ tx_amount float_of_text tx = Ok x /\
                   py_ge x threshold = Ok true /\
                   a = PDict [("tx_hash", item "hash" tx); ("amount", PFloat x);
                              ("from", item "from_address" (PDict v));
                              ("to", item "to_address" (PDict v));
                              ("time", item "time" tx)])
              reported found /\
      (List.length found <= List.length txs)%nat.
Proof.
  induction txs as [|tx rest IH]; intros threshold found Hfound.
  - injection Hfound as <-. exists []. repeat constructor.
  - rewrite detect_cons in Hfound.
    destruct (try_tx tx threshold []) as [first|e] eqn:Htry.
    + destruct (detect rest threshold) as [more|e] eqn:Hrest; cbn [bind] in Hfound;
        [|discriminate].
      injection Hfound as <-.
      destruct (IH threshold more Hrest) as (reported & Hsub & Hall & Hlen).
      destruct (detect_try_outcome tx threshold first Htry)
        as [-> | (v & x & Hv & Hx & Hge & ->)].
      * exists reported. cbn [app List.length].
        split; [now constructor|]. split; [exact Hall|]. now apply le_S.
      * exists (tx :: reported). cbn [app List.length].
        split; [now constructor|]. split; [|now apply le_n_S].
        constructor; [|exact Hall]. exists v, x. auto.
    + destruct (skipped e); [|discriminate].
      destruct (IH threshold found Hfound) as (reported & Hsub & Hall & Hlen).
      exists reported. cbn [List.length].
      split; [now constructor|]. split; [exact Hall|]. now apply le_S.
Qed.

Lemma subsequence_refl {A} (l : list A) : subsequence l l.
Proof. induction l; now constructor. Qed.

(** A float that is at least an integer is at least every smaller one. *)
Lemma float_ge_Z_monotone x low high :
  low <= high -> float_ge_Z x high = true -> float_ge_Z x low = true.
Proof.
  intros Hle. destruct x as [s|s| |s m e]; cbn [float_ge_Z]; try easy.
  - rewrite !Z.leb_le. lia.
  - cbv zeta. set (v := if s then Z.neg m else Z.pos m).
    destruct (0 <=? e) eqn:He; rewrite !Z.leb_le; [lia|].
    apply Z.leb_gt in He.
    assert (0 < 2 ^ (- e)) by (apply Z.pow_pos_nonneg; lia). nia.
Qed.

(** The body of the [try] under an integer threshold. *)
Lemma detect_try_integer tx n :
  try_tx tx (PInt n) [] =
  match tx_amount float_of_text tx with
  | Raise e => Raise e
  | Ok x => if float_ge_Z x n then (a <- movement tx x ;; Ok [a]) else Ok []
  end.
Proof.
  unfold detect_try. destruct (tx_amount float_of_text tx) as [x|e]; cbn [bind py_ge];
    [|reflexivity].
  destruct (float_ge_Z x n); [|reflexivity].
  destruct (movement tx x); reflexivity.
Qed.

(** Lowering an integer threshold loses no alert: the detector still
    returns, and what it returned under the higher threshold is what
    it returns now with some alerts left out. *)
Theorem lower_threshold_keeps_alerts :
  forall txs low high found,
    low <= high ->
    detect txs (PInt high) = Ok found ->
    exists more,
      detect txs (PInt low) = Ok more /\ subsequence found more.
Proof.
  intros txs low high found Hle. revert found.
  induction txs as [|tx rest IH]; intros found Hfound.
  - injection Hfound as <-. exists []. split; [reflexivity | constructor].
  - rewrite detect_cons, detect_try_integer in Hfound.
    rewrite detect_cons, detect_try_integer.
    destruct (tx_amount float_of_text tx) as [x|e] eqn:Hamount.
    + destruct (tx_amount_reaches tx x Hamount) as [v Hv].
      rewrite (movement_of_reached tx v x Hv) in Hfound |- *. cbn [bind] in Hfound |- *.
      destruct (detect rest (PInt high)) as [found'|e] eqn:Hrest;
        [|destruct (float_ge_Z x high); discriminate].
      destruct (IH found' eq_refl) as (more' & -> & Hsub).
      destruct (float_ge_Z x high) eqn:Hhigh; cbn [bind] in Hfound;
        injection Hfound as <-.
      * rewrite (float_ge_Z_monotone x low high Hle Hhigh). cbn [bind app].
        eexists. split; [reflexivity|]. now constructor.
      * destruct (float_ge_Z x low); cbn [bind app]; eexists;
          (split; [reflexivity|]); [now constructor | exact Hsub].
    + destruct (skipped e); [|discriminate]. now apply IH.
Qed.


End DetectorOnAnyList.

(** The three theorems above at the list the stub returns. *)
Lemma detect_reports_a_subsequence_witness :
  exists reported,
    subsequence reported fetch_pokt_transactions /\
    List.length reported = 1%nat.
Proof.
  destruct (detect_reports_a_subsequence no_numbers fetch_pokt_transactions
              default_threshold
              [PDict [("tx_hash", PStr "abc123");
                      ("amount", PFloat (float_of_Z 150000));
                      ("from", PStr "0x1111..."); ("to", PStr "0x1234...");
                      ("time", PNone)]])
    as (reported & Hsub & Hall & _).
  - vm_compute. reflexivity.
  - exists reported. split; [exact Hsub|].
    inversion Hall as [|tx a rest found _ Hrest]; subst.
    inversion Hrest; subst. reflexivity.
Defined.

Lemma lower_threshold_keeps_alerts_witness :
  exists more,
    detect_large_movements no_numbers fetch_pokt_transactions (PInt 5) = Ok more /\
    subsequence
      [PDict [("tx_hash", PStr "abc123"); ("amount", PFloat (float_of_Z 150000));
              ("from", PStr "0x1111..."); ("to", PStr "0x1234..."); ("time", PNone)]]
      more.
Proof.
  apply (lower_threshold_keeps_alerts no_numbers fetch_pokt_transactions 5 100000).
  - lia.
  - vm_compute. reflexivity.
Defined.


(** ** Address Classifier: every value *)

(** The two exchange labels are given to their one address each and to
    nothing else; every other value that can be hashed, a missing
    address included, is labelled; a list or a dict raises
    [TypeError]. *)
Theorem exchange_labels_identify_the_address :
  forall address,
    (check_exchange_wallet address = Ok (PStr "Binance") <->
     address = PStr "0x1234...") /\
    (check_exchange_wallet address = Ok (PStr "Coinbase") <->
     address = PStr "0x5678...") /\
    (hashable address = true ->
     check_exchange_wallet address = Ok (PStr "Binance") \/
     check_exchange_wallet address = Ok (PStr "Coinbase") \/
     check_exchange_wallet address = Ok (PStr "Unknown")) /\
    (hashable address = false -> check_exchange_wallet address = Raise TypeError).
Proof.
  intros address.
  destruct address as [ |b|n|x|a|l|d]; cbn [check_exchange_wallet hashable];
    try (repeat split; intros; auto; discriminate).
  cbn [known_exchanges lookup].
  destruct (String.eqb_spec "0x1234..." a) as [<-|Hne1].
  - repeat split; intros; auto; discriminate.
  - destruct (String.eqb_spec "0x5678..." a) as [<-|Hne2].
    + repeat split; intros; auto; discriminate.
    + repeat split; intros H; auto; try discriminate;
        injection H as H; congruence.
Qed.

(** ** News Watcher: any feed *)

(** The test of line 75 is containment of a keyword whatever the case
    of the letters: "SHANNON", "Upgrade" and "pre-upgrades" pass, and
    a title passes only if some stretch of it is, letter by letter up
    to case, one of the two keywords. *)
Theorem keyword_test_is_case_insensitive :
  forall t,
    (contains "shannon" (lower t) || contains "upgrade" (lower t))%bool = true <->
    exists before mid after,
      t = (before ++ mid ++ after)%string /\
      (lower mid = "shannon" \/ lower mid = "upgrade").
Proof.
  intros t. rewrite orb_true_iff, !contains_lower_mentions. unfold mentions.
  split.
  - intros [(b & m & a & Ht & Hm) | (b & m & a & Ht & Hm)]; exists b, m, a; auto.
  - intros (b & m & a & Ht & [Hm | Hm]); [left | right]; exists b, m, a; auto.
Qed.

(** Whatever the feed, a text that the check returns is built from
    title and link of an entry among the first five, that title
    contains a keyword, and no entry before it does. *)
Theorem news_comes_from_the_first_relevant_entry :
  forall parsed found,
    migration_news parsed = Some found ->
    exists entries before e after t l,
      parsed = Ok entries /\
      firstn 5 entries = before ++ e :: after /\
      Forall irrelevant before /\
      complete e t l /\ relevant t /\ found = news_text t l.
Proof.
  intros [entries|e] found Hfound; unfold migration_news in Hfound;
    cbn [bind] in Hfound; [|discriminate].
  destruct (scan_entries (firstn 5 entries)) as [[news|]|e] eqn:Hscan;
    try discriminate.
  injection Hfound as ->.
  destruct (scan_entries_found _ _ Hscan) as (before & e & after & t & l & H).
  exists entries, before, e, after, t, l. tauto.
Qed.

(** An entry that lacks what the scan reads of it ends the check with
    no news, whatever comes after it: an entry without title, or an
    entry whose title is relevant and which has no link.  The
    [AttributeError] is caught by line 78. *)
Theorem missing_attribute_ends_the_check :
  forall entries before e after,
    firstn 5 entries = before ++ e :: after ->
    Forall irrelevant before ->
    title e = None \/ (exists t, title e = Some t /\ relevant t /\ link e = None) ->
    migration_news (Ok entries) = None.
Proof.
  intros entries before e after Hfirst Hbefore Hmissing.
  unfold migration_news. cbn [bind]. rewrite Hfirst. clear Hfirst.
  assert (Hscan : scan_entries (before ++ e :: after) = Raise AttributeError).
  { induction Hbefore as [|e0 before (t0 & Ht0 & Hirr) _ IH]; cbn [app scan_entries].
    - destruct Hmissing as [-> | (t & -> & Hrel & ->)]; cbn [attribute bind];
        [reflexivity|].
      apply matches_relevant in Hrel. unfold matches in Hrel. now rewrite Hrel.
    - rewrite Ht0. cbn [attribute bind].
      destruct (matches t0) eqn:Hm; [now apply matches_relevant in Hm|].
      unfold matches in Hm. now rewrite Hm. }
  now rewrite Hscan.
Qed.

Lemma news_comes_from_the_first_relevant_entry_witness :
  exists entries before e after t l,
    Ok [{| title := Some "Shannon mainnet launch"; link := Some "https://pocket.network/s" |}]
    = Ok entries /\
    firstn 5 entries = before ++ e :: after /\
    Forall irrelevant before /\
    complete e t l /\ relevant t /\
    news_text "Shannon mainnet launch" "https://pocket.network/s" = news_text t l.
Proof.
  apply (news_comes_from_the_first_relevant_entry
           (Ok [{| title := Some "Shannon mainnet launch";
                   link := Some "https://pocket.network/s" |}])).
  reflexivity.
Defined.

Lemma missing_attribute_ends_the_check_witness :
  migration_news
    (Ok [{| title := Some "Weekly digest"; link := Some "https://pocket.network/w" |};
         {| title := Some "Shannon upgrade"; link := None |};
         {| title := Some "Shannon mainnet launch"; link := Some "https://pocket.network/s" |}])
  = None.
Proof.
  apply missing_attribute_ends_the_check with
    (before := [{| title := Some "Weekly digest"; link := Some "https://pocket.network/w" |}])
    (e := {| title := Some "Shannon upgrade"; link := None |})
    (after := [{| title := Some "Shannon mainnet launch";
                  link := Some "https://pocket.network/s" |}]).
  - reflexivity.
  - constructor; [|constructor]. exists "Weekly digest". split; [reflexivity|].
    intros Hrel. apply matches_relevant in Hrel. vm_compute in Hrel. discriminate Hrel.
  - right. exists "Shannon upgrade". repeat split.
    apply matches_relevant. vm_compute. reflexivity.
Defined.

(** ** Command Dispatcher: every request *)

Lemma py_getitem_ok obj key v :
  py_getitem obj key = Ok v -> exists d, obj = PDict d /\ lookup key d = Some v.
Proof.
  destruct obj; cbn [py_getitem]; try discriminate.
  destruct (lookup key items) eqn:Hkey; [|discriminate].
  intros H. injection H as <-. eauto.
Qed.

Section DispatcherOnAnyRequest.

Variable telegram : nat -> result pyval.

Abbreviation hook := (webhook telegram).

Ltac run_reply :=
  unfold start_monitoring, reply, bindM, is_set, set_event, start_thread,
    send_telegram_message, ret; cbn [stop_event threads outbox feed_reads posted].

(** A request either leaves the process as it is, or is a chat
    message and reaches the dispatch. *)
Lemma webhook_cases update w :
  snd (hook update w) = w \/ exists chat_id txt, chat_message update chat_id txt.
Proof.
  unfold webhook. destruct (negb (truthy update)); [now left|].
  unfold bindM, lift.
  destruct (py_in "message" update) as [[|]|e]; cbn [snd]; try (now left).
  destruct (py_getitem update "message") as [m|e] eqn:Hm; cbn [snd]; [|now left].
  destruct (py_getitem m "chat") as [c|e] eqn:Hc; cbn [snd]; [|now left].
  destruct (py_getitem c "id") as [chat_id|e] eqn:Hid; cbn [snd]; [|now left].
  right.
  destruct (py_getitem_ok _ _ _ Hm) as (d & -> & Hd).
  destruct (py_getitem_ok _ _ _ Hc) as (md & -> & Hmd).
  destruct (py_getitem_ok _ _ _ Hid) as (cd & -> & Hcd).
  exists chat_id, (match lookup "text" md with Some t => t | None => PStr "" end).
  now apply is_chat_message with d md cd.
Qed.

(** The world after the dispatch of a text that is neither [/monitor]
    nor [/stop]: one reply to the chat, nothing else. *)
Lemma dispatch_other chat_id txt w :
  py_eq_str txt "/monitor" = false -> py_eq_str txt "/stop" = false ->
  exists message,
    snd (dispatch telegram chat_id txt w) = posted chat_id message w /\
    (is_command txt = false -> message = [Lit "받은 메시지: "; Fmt txt ""]).
Proof.
  intros Hmonitor Hstop. unfold dispatch, is_command. rewrite Hmonitor, Hstop.
  destruct (py_eq_str txt "/start"); [|destruct (py_eq_str txt "/help");
    [|destruct (py_eq_str txt "/status")]];
    run_reply; destruct (telegram (List.length (outbox w))) as [v|[]];
    cbn [snd orb]; eexists; (split; [reflexivity|]); intros H;
    reflexivity || discriminate H.
Qed.

(** Only [/monitor] and [/stop] touch the monitor: a chat message with
    any other text, a command or not, gets exactly one reply to its
    chat and leaves the event and the threads as they are. *)
Theorem only_monitor_and_stop_touch_the_monitor :
  forall update chat_id txt w,
    chat_message update chat_id txt ->
    py_eq_str txt "/monitor" = false -> py_eq_str txt "/stop" = false ->
    exists message, snd (hook update w) = posted chat_id message w.
Proof.
  intros update chat_id txt w Hchat Hmonitor Hstop.
  destruct (dispatch_other chat_id txt w Hmonitor Hstop) as (message & Hworld & _).
  exists message. rewrite (webhook_chat_message telegram update chat_id txt w Hchat).
  unfold bindM. destruct (dispatch telegram chat_id txt w) as [[u|e] w'];
    cbn [snd] in *; exact Hworld.
Qed.

(** A text that is none of the five commands (a command with a space
    after it, or a message without text) is echoed to its chat as it
    came, and changes nothing else. *)
Theorem unknown_text_is_echoed :
  forall update chat_id txt w,
    chat_message update chat_id txt ->
    is_command txt = false ->
    snd (hook update w) = posted chat_id [Lit "받은 메시지: "; Fmt txt ""] w.
Proof.
  intros update chat_id txt w Hchat Hnone.
  assert (Hmonitor : py_eq_str txt "/monitor" = false).
  { unfold is_command in Hnone. destruct (py_eq_str txt "/monitor"); [|reflexivity].
    now rewrite !orb_true_r in Hnone. }
  assert (Hstop : py_eq_str txt "/stop" = false).
  { unfold is_command in Hnone. destruct (py_eq_str txt "/stop"); [|reflexivity].
    now rewrite !orb_true_r in Hnone. }
  destruct (dispatch_other chat_id txt w Hmonitor Hstop) as (message & Hworld & Hecho).
  rewrite (webhook_chat_message telegram update chat_id txt w Hchat).
  unfold bindM. destruct (dispatch telegram chat_id txt w) as [[u|e] w'];
    cbn [snd] in *; now rewrite Hworld, (Hecho Hnone).
Qed.

(** [/stop] sets the event whatever the state, touches no thread and
    answers "stopped"; a second [/stop] finds the event set and leaves
    it set. *)
Theorem stop_sets_the_event :
  forall update chat_id w,
    chat_message update chat_id (PStr "/stop") ->
    snd (hook update w) = posted chat_id monitoring_stopped (with_event true w) /\
    stop_event (snd (hook update (snd (hook update w)))) = true /\
    threads (snd (hook update (snd (hook update w)))) = threads w.
Proof.
  intros update chat_id w Hchat.
  assert (Hworld : forall w0,
             snd (hook update w0) = posted chat_id monitoring_stopped (with_event true w0)).
  { intros w0. rewrite (webhook_chat_message telegram update chat_id _ w0 Hchat).
    unfold dispatch; cbn [py_eq_str String.eqb Ascii.eqb Bool.eqb].
    run_reply. destruct (telegram (List.length (outbox w0))) as [v|[]]; reflexivity. }
  split; [apply Hworld|]. rewrite !Hworld. split; reflexivity.
Qed.

(** [/monitor] with the event set is the start: the event is cleared,
    exactly one thread is started at the test of its loop, the threads
    there are stay as they are, and the answer is "started". *)
Theorem start_when_stopped_starts_one_thread :
  forall update chat_id w,
    chat_message update chat_id (PStr "/monitor") ->
    stop_event w = true ->
    snd (hook update w) = posted chat_id monitoring_started (started w) /\
    active_loops (snd (hook update w)) = S (active_loops w).
Proof.
  intros update chat_id w Hchat Hset.
  assert (Hworld : snd (hook update w) = posted chat_id monitoring_started (started w)).
  { rewrite (webhook_chat_message telegram update chat_id _ w Hchat).
    unfold dispatch; cbn [py_eq_str String.eqb Ascii.eqb Bool.eqb].
    unfold bindM at 1 2. unfold is_set at 1. rewrite Hset. cbn [negb].
    pose proof (start_monitoring_world telegram chat_id w) as Hstart.
    destruct (start_monitoring telegram chat_id w) as [[u|e] w'];
      cbn [snd] in *; exact Hstart. }
  split; [exact Hworld|]. rewrite Hworld.
  unfold active_loops, posted, started; cbn [threads].
  rewrite filter_app, length_app. cbn. lia.
Qed.

End DispatcherOnAnyRequest.

Section BrokenRequests.

Variable telegram : nat -> result pyval.

Abbreviation hook := (webhook telegram).

(** A payload that has a [message] without the structure below it
    makes the view raise at line 141 (the framework answers 500), and
    so does a payload that is no object at line 140 or 141; nothing
    is sent and nothing changes.  Missing members raise [KeyError],
    members of the wrong kind [TypeError]. *)
Theorem broken_message_structure_raises :
  forall w,
    (forall d m,
        lookup "message" d = Some m -> (forall md, m <> PDict md) ->
        hook (PDict d) w = (Raise TypeError, w)) /\
    (forall d md,
        lookup "message" d = Some (PDict md) -> lookup "chat" md = None ->
        hook (PDict d) w = (Raise KeyError, w)) /\
    (forall d md c,
        lookup "message" d = Some (PDict md) -> lookup "chat" md = Some c ->
        (forall cd, c <> PDict cd) ->
        hook (PDict d) w = (Raise TypeError, w)) /\
    (forall d md cd,
        lookup "message" d = Some (PDict md) -> lookup "chat" md = Some (PDict cd) ->
        lookup "id" cd = None ->
        hook (PDict d) w = (Raise KeyError, w)) /\
    (forall n, n <> 0 -> hook (PInt n) w = (Raise TypeError, w)) /\
    (forall l,
        existsb (fun v => py_eq_str v "message") l = true ->
        hook (PList l) w = (Raise TypeError, w)) /\
    (forall s,
        contains "message" s = true -> hook (PStr s) w = (Raise TypeError, w)).
Proof.
  intros w.
  assert (Hfull : forall d m, lookup "message" d = Some m -> truthy (PDict d) = true)
    by (intros [|] m H; [discriminate H | reflexivity]).
  repeat split.
  - intros d m Hm Hkind. unfold webhook. rewrite (Hfull d m Hm). cbn [negb].
    unfold bindM, lift. cbn [py_in py_getitem]. rewrite Hm.
    destruct m; try reflexivity. now destruct (Hkind items).
  - intros d md Hm Hc. unfold webhook. rewrite (Hfull d _ Hm). cbn [negb].
    unfold bindM, lift. cbn [py_in py_getitem]. rewrite Hm. cbn [py_getitem].
    now rewrite Hc.
  - intros d md c Hm Hc Hkind. unfold webhook. rewrite (Hfull d _ Hm). cbn [negb].
    unfold bindM, lift. cbn [py_in py_getitem]. rewrite Hm. cbn [py_getitem].
    rewrite Hc. destruct c; try reflexivity. now destruct (Hkind items).
  - intros d md cd Hm Hc Hid. unfold webhook. rewrite (Hfull d _ Hm). cbn [negb].
    unfold bindM, lift. cbn [py_in py_getitem]. rewrite Hm. cbn [py_getitem].
    rewrite Hc. cbn [py_getitem]. now rewrite Hid.
  - intros n Hn. unfold webhook. cbn [truthy].
    destruct (Z.eqb_spec n 0) as [->|_]; [now destruct Hn | reflexivity].
  - intros l Hin. unfold webhook.
    destruct l as [|v l]; [discriminate Hin|]. cbn [truthy negb].
    unfold bindM, lift. cbn [py_in]. now rewrite Hin.
  - intros s Hin. unfold webhook.
    destruct s as [|c s]; [discriminate Hin|]. cbn [truthy String.eqb negb].
    unfold bindM, lift. cbn [py_in]. now rewrite Hin.
Qed.

(** ** The test endpoint *)

(** [/test] answers that the message was sent whatever became of it:
    it hands the one canned message for the configured chat to the
    transport and returns the same text when the transport delivered
    and when it failed. *)
Theorem test_reports_success_whatever_the_delivery :
  forall TELEGRAM_CHAT_ID w,
    transport_failure (telegram (List.length (outbox w))) ->
    test TELEGRAM_CHAT_ID telegram w =
    (Ok "텔레그램 메시지 전송 완료!",
     posted (PStr TELEGRAM_CHAT_ID)
       [Lit "✅ 테스트 메시지: 서버가 잘 작동 중입니다."] w).
Proof.
  intros chat w Hfail. unfold test, bindM, send_telegram_message, ret.
  unfold transport_failure in Hfail.
  destruct (telegram (List.length (outbox w))) as [v|[]];
    reflexivity || contradiction.
Qed.

End BrokenRequests.

Lemma broken_message_structure_raises_witness :
  webhook delivered (PDict [("message", PStr "hello")]) initial = (Raise TypeError, initial) /\
  webhook delivered (PDict [("message", PDict [("text", PStr "/stop")])]) initial =
  (Raise KeyError, initial) /\
  webhook delivered (PInt 5) initial = (Raise TypeError, initial) /\
  webhook delivered (PStr "a message") initial = (Raise TypeError, initial).
Proof.
  destruct (broken_message_structure_raises delivered initial)
    as (Hkind & Hchat & _ & _ & Hnumber & _ & Htext).
  split; [|split; [|split]].
  - apply Hkind with (m := PStr "hello"); [reflexivity | discriminate].
  - apply Hchat with (md := [("text", PStr "/stop")]); reflexivity.
  - apply Hnumber. lia.
  - apply Htext. vm_compute. reflexivity.
Defined.

Lemma test_reports_success_whatever_the_delivery_witness :
  test chat_of_the_bot timed_out initial =
  (Ok "텔레그램 메시지 전송 완료!",
   posted (PStr chat_of_the_bot) [Lit "✅ 테스트 메시지: 서버가 잘 작동 중입니다."] initial).
Proof.
  apply (test_reports_success_whatever_the_delivery timed_out chat_of_the_bot initial).
  simpl. exact I.
Defined.

Lemma only_monitor_and_stop_touch_the_monitor_witness :
  exists message,
    snd (webhook delivered (command (PInt 7) "/status") stopped_asleep) =
    posted (PInt 7) message stopped_asleep.
Proof.
  apply (only_monitor_and_stop_touch_the_monitor delivered
           (command (PInt 7) "/status") (PInt 7) (PStr "/status") stopped_asleep).
  - apply command_is_chat_message.
  - reflexivity.
  - reflexivity.
Defined.

Lemma unknown_text_is_echoed_witness :
  snd (webhook delivered (command (PInt 7) "/monitor ") stopped_asleep) =
  posted (PInt 7) [Lit "받은 메시지: "; Fmt (PStr "/monitor ") ""] stopped_asleep.
Proof.
  apply (unknown_text_is_echoed delivered (command (PInt 7) "/monitor ") (PInt 7)
           (PStr "/monitor ") stopped_asleep).
  - apply command_is_chat_message.
  - reflexivity.
Defined.

Lemma stop_sets_the_event_witness :
  snd (webhook delivered (command (PInt 7) "/stop") initial) =
  posted (PInt 7) monitoring_stopped (with_event true initial).
Proof.
  apply (stop_sets_the_event delivered (command (PInt 7) "/stop") (PInt 7) initial).
  apply command_is_chat_message.
Defined.

Lemma start_when_stopped_starts_one_thread_witness :
  snd (webhook delivered (command (PInt 7) "/monitor") stopped_asleep) =
  posted (PInt 7) monitoring_started (started stopped_asleep) /\
  active_loops (snd (webhook delivered (command (PInt 7) "/monitor") stopped_asleep)) =
  S (active_loops stopped_asleep).
Proof.
  apply (start_when_stopped_starts_one_thread delivered
           (command (PInt 7) "/monitor") (PInt 7) stopped_asleep).
  - apply command_is_chat_message.
  - reflexivity.
Defined.

(** ** Monitor Loop: one step of a thread *)

Section MonitorStep.

Variable float_of_text : string -> option float.
Variable TELEGRAM_CHAT_ID : string.
Variable telegram : nat -> result pyval.
Variable feed : nat -> result (list entry).

Abbreviation chat := (PStr TELEGRAM_CHAT_ID).
Abbreviation hook := (webhook telegram).
Abbreviation next := (step float_of_text TELEGRAM_CHAT_ID telegram feed).
Abbreviation after := (run float_of_text TELEGRAM_CHAT_ID telegram feed).
Abbreviation notify := (notify_movement TELEGRAM_CHAT_ID telegram).
Abbreviation cycle := (monitor_cycle float_of_text TELEGRAM_CHAT_ID telegram feed).

Abbreviation to_chat := (fun p : pyval * text => fst p = chat).

Lemma grown_refl w : grown w w [].
Proof. unfold grown. rewrite app_nil_r. auto. Qed.

Lemma grown_posted c m w : grown w (posted c m w) [(c, m)].
Proof. unfold grown, posted; cbn. auto. Qed.

Lemma grown_trans w1 w2 w3 posts posts' :
  grown w1 w2 posts -> grown w2 w3 posts' -> grown w1 w3 (posts ++ posts').
Proof.
  unfold grown. intros (He & Ht & Ho & Hf) (He' & Ht' & Ho' & Hf').
  rewrite He', Ht', Ho', Ho, app_assoc. repeat split; auto. lia.
Qed.

(** Lines 103-112 post nothing (an exception came first) or the one
    message for the configured chat. *)
Lemma notify_movement_world movement w :
  snd (notify movement w) = w \/
  exists message, snd (notify movement w) = posted chat message w.
Proof.
  unfold notify_movement, bindM, lift.
  destruct (py_getitem movement "to") as [to|e]; cbn [snd]; [|now left].
  destruct (check_exchange_wallet to) as [to_exchange|e]; cbn [snd]; [|now left].
  destruct (py_getitem movement "amount") as [amount|e]; cbn [snd]; [|now left].
  destruct (py_getitem movement "from") as [from|e]; cbn [snd]; [|now left].
  destruct (py_getitem movement "time") as [time|e]; cbn [snd]; [|now left].
  destruct (py_getitem movement "tx_hash") as [tx_hash|e]; cbn [snd]; [|now left].
  right. eexists.
  match goal with
  | |- context [send_telegram_message telegram ?c ?m w] =>
      pose proof (send_posts telegram c m w) as Hsend;
      destruct (send_telegram_message telegram c m w) as [[v|e] w']
  end; cbn [snd ret] in *; exact Hsend.
Qed.

Lemma notify_movements_world movements : forall w,
  exists posts,
    grown w (snd (notify_movements TELEGRAM_CHAT_ID telegram movements w)) posts /\
    Forall to_chat posts /\ (List.length posts <= List.length movements)%nat.
Proof.
  induction movements as [|movement rest IH]; intros w; cbn [notify_movements].
  - exists []. split; [apply grown_refl|]. split; [constructor | apply le_n].
  - unfold bindM.
    destruct (notify_movement_world movement w) as [Hw | [message Hw]];
      destruct (notify movement w) as [[u|e] w1]; cbn [snd] in *; subst w1.
    + destruct (IH w) as (posts & Hg & Hall & Hlen).
      exists posts. split; [exact Hg|]. split; [exact Hall|]. cbn [List.length]. lia.
    + exists []. split; [apply grown_refl|]. split; [constructor|]. cbn. lia.
    + destruct (IH (posted chat message w)) as (posts & Hg & Hall & Hlen).
      exists ([(chat, message)] ++ posts).
      split; [exact (grown_trans _ _ _ _ _ (grown_posted chat message w) Hg)|].
      split; [constructor; [reflexivity | exact Hall]|]. cbn [List.length app]. lia.
    + exists [(chat, message)]. split; [apply grown_posted|].
      split; [repeat constructor|]. cbn. lia.
Qed.

(** The stub's transaction is always reported, whatever parses text. *)
Lemma stub_is_reported :
  detect_large_movements float_of_text fetch_pokt_transactions default_threshold =
  Ok [stub_alert].
Proof. vm_compute. reflexivity. Qed.

(** One pass of lines 100-116 posts at most two messages, all for the
    configured chat, and leaves the event and the threads alone. *)
Lemma monitor_cycle_world w :
  exists posts,
    grown w (snd (cycle w)) posts /\ Forall to_chat posts /\
    (List.length posts <= 2)%nat.
Proof.
  unfold monitor_cycle. rewrite stub_is_reported. unfold bindM at 1. unfold lift.
  unfold bindM at 1.
  destruct (notify_movements_world [stub_alert] w) as (posts & Hg & Hall & Hlen).
  destruct (notify_movements TELEGRAM_CHAT_ID telegram [stub_alert] w) as [[u|e] w1];
    cbn [snd] in *.
  - unfold bindM, fetch_migration_news.
    destruct (migration_news (feed (feed_reads w1))) as [message|].
    + exists (posts ++ [(chat, message)]).
      assert (Hn : grown w1 (posted chat message (feed_read w1)) [(chat, message)]).
      { unfold grown, posted, feed_read; cbn. auto. }
      split.
      * pose proof (send_posts telegram chat message (feed_read w1)) as Hsend.
        destruct (send_telegram_message telegram chat message (feed_read w1))
          as [[v|e] w2]; cbn [snd ret] in *; subst w2;
          exact (grown_trans _ _ _ _ _ Hg Hn).
      * split; [apply Forall_app; split; [exact Hall | repeat constructor]|].
        rewrite length_app. cbn [List.length] in *. lia.
    + exists posts. cbn [snd ret]. split.
      * destruct Hg as (He & Ht & Ho & Hf). unfold grown, feed_read; cbn.
        repeat split; auto.
      * split; [exact Hall|]. cbn [List.length] in Hlen. lia.
  - exists posts. split; [exact Hg|]. split; [exact Hall|].
    cbn [List.length] in Hlen. lia.
Qed.

Lemma replace_length {A} (l : list A) : forall i a,
  List.length (replace i a l) = List.length l.
Proof. induction l as [|x l IH]; intros [|i] a; cbn; auto. Qed.

(** What a step of thread [i] does to the rest of the process. *)
Lemma monitor_thread_world :
  forall i w,
    stop_event (next (Run i) w) = stop_event w /\
    List.length (threads (next (Run i) w)) = List.length (threads w) /\
    (forall j, j <> i ->
               nth_error (threads (next (Run i) w)) j = nth_error (threads w) j) /\
    exists posts,
      outbox (next (Run i) w) = outbox w ++ posts /\
      Forall to_chat posts /\ (List.length posts <= 2)%nat.
Proof.
  intros i w. cbn [step]. unfold monitor_pokt.
  assert (Hsame : exists posts,
             outbox w = outbox w ++ posts /\ Forall to_chat posts /\
             (List.length posts <= 2)%nat).
  { exists []. rewrite app_nil_r. repeat split; [constructor | cbn; lia]. }
  destruct (nth_error (threads w) i) as [t|]; [|now repeat split].
  destruct (at_pc t).
  - destruct (stop_event w) eqn:Hset.
    + cbn [set_thread stop_event threads outbox]. rewrite replace_length.
      repeat split; auto. intros j Hj. now apply nth_error_replace_other.
    + destruct (monitor_cycle_world w) as (posts & (He & Ht & Ho & Hf) & Hall & Hlen).
      destruct (cycle w) as [[u|e] w1]; cbn [snd] in *;
        cbn [set_thread stop_event threads outbox]; rewrite replace_length, Ht;
        (split; [congruence|]); (split; [reflexivity|]);
        (split; [intros j Hj; now apply nth_error_replace_other|]);
        exists posts; auto.
  - cbn [set_thread stop_event threads outbox]. rewrite replace_length.
    repeat split; auto. intros j Hj. now apply nth_error_replace_other.
  - now repeat split.
  - now repeat split.
Qed.

(** A step of a monitor thread, in any state of the process, never
    writes the event, never touches another thread, and posts at most
    two messages, to the configured chat and to no other. *)
Theorem monitor_thread_posts_only_to_the_configured_chat :
  forall i w,
    let w' := step float_of_text TELEGRAM_CHAT_ID telegram feed (Run i) w in
    stop_event w' = stop_event w /\
    List.length (threads w') = List.length (threads w) /\
    (forall j, j <> i -> nth_error (threads w') j = nth_error (threads w) j) /\
    exists posts,
      outbox w' = outbox w ++ posts /\
      Forall (fun p => fst p = PStr TELEGRAM_CHAT_ID) posts /\
      (List.length posts <= 2)%nat.
Proof.
  intros i w w'. subst w'.
  destruct (monitor_thread_world i w) as (Hevent & Hlength & Hothers & posts & Hposts).
  split; [exact Hevent|]. split; [exact Hlength|]. split; [exact Hothers|].
  now exists posts.
Qed.

End MonitorStep.

Section MonitorRuns.

Variable float_of_text : string -> option float.
Variable TELEGRAM_CHAT_ID : string.
Variable telegram : nat -> result pyval.
Variable feed : nat -> result (list entry).

Abbreviation chat := (PStr TELEGRAM_CHAT_ID).
Abbreviation hook := (webhook telegram).
Abbreviation next := (step float_of_text TELEGRAM_CHAT_ID telegram feed).
Abbreviation after := (run float_of_text TELEGRAM_CHAT_ID telegram feed).
Abbreviation notify := (notify_movement TELEGRAM_CHAT_ID telegram).
Abbreviation cycle := (monitor_cycle float_of_text TELEGRAM_CHAT_ID telegram feed).

Abbreviation news_of := (news_posts TELEGRAM_CHAT_ID feed).

(** Lines 103-112 on the stub's alert. *)
Lemma notify_stub_alert w :
  notify stub_alert w =
  match telegram (List.length (outbox w)) with
  | Ok _ | Raise (RequestException _) => (Ok tt, posted chat stub_alert_text w)
  | Raise e => (Raise e, posted chat stub_alert_text w)
  end.
Proof.
  unfold notify_movement, stub_alert, bindM, lift, send_telegram_message, ret.
  cbn [py_getitem lookup String.eqb Ascii.eqb Bool.eqb check_exchange_wallet
       known_exchanges].
  destruct (telegram (List.length (outbox w))) as [v|[]]; reflexivity.
Qed.

Lemma notify_stub_alerts w :
  notify_movements TELEGRAM_CHAT_ID telegram [stub_alert] w =
  match telegram (List.length (outbox w)) with
  | Ok _ | Raise (RequestException _) => (Ok tt, posted chat stub_alert_text w)
  | Raise e => (Raise e, posted chat stub_alert_text w)
  end.
Proof.
  cbn [notify_movements]. unfold bindM. rewrite notify_stub_alert.
  destruct (telegram (List.length (outbox w))) as [v|[]]; reflexivity.
Qed.

(** A cycle whose sends fail at most as the transport fails. *)
Lemma monitor_cycle_delivers w :
  transport_failure (telegram (List.length (outbox w))) ->
  transport_failure (telegram (S (List.length (outbox w)))) ->
  fst (cycle w) = Ok tt /\
  stop_event (snd (cycle w)) = stop_event w /\
  threads (snd (cycle w)) = threads w /\
  feed_reads (snd (cycle w)) = S (feed_reads w) /\
  outbox (snd (cycle w)) = outbox w ++ (chat, stub_alert_text) :: news_of w.
Proof.
  intros Hfirst Hsecond.
  assert (Hnotify : notify_movements TELEGRAM_CHAT_ID telegram [stub_alert] w =
                    (Ok tt, posted chat stub_alert_text w)).
  { rewrite notify_stub_alerts. unfold transport_failure in Hfirst.
    destruct (telegram (List.length (outbox w))) as [v|[]];
      reflexivity || contradiction. }
  unfold monitor_cycle. rewrite stub_is_reported. unfold bindM, lift.
  rewrite Hnotify. unfold fetch_migration_news, news_posts.
  cbn [feed_reads posted].
  destruct (migration_news (feed (feed_reads w))) as [message|].
  - unfold send_telegram_message. cbn [outbox feed_read posted].
    rewrite length_app, Nat.add_comm. cbn [List.length Nat.add].
    unfold transport_failure in Hsecond.
    destruct (telegram (S (List.length (outbox w)))) as [v'|[]]; try contradiction;
      cbn [fst snd ret stop_event threads feed_reads outbox feed_read posted];
      rewrite <- app_assoc; repeat split; reflexivity.
  - cbn [fst snd ret stop_event threads feed_reads outbox feed_read posted].
    repeat split; reflexivity.
Qed.

(** While the event is clear a thread at the test of its loop runs
    one cycle and goes to sleep: it posts the alert of the stub's
    transaction (receiver labelled Binance, time [None], the stub
    keeping its time where line 55 does not look) and then the news if
    the feed has any, all to the configured chat, and reads the feed
    once.  The two sends may fail as the transport fails. *)
Theorem running_loop_posts_alert_and_news :
  forall i w t,
    stop_event w = false ->
    nth_error (threads w) i = Some t ->
    at_pc t = Polling ->
    transport_failure (telegram (List.length (outbox w))) ->
    transport_failure (telegram (S (List.length (outbox w)))) ->
    nth_error (threads (next (Run i) w)) i =
    Some {| at_pc := Sleeping; cycles := S (cycles t) |} /\
    stop_event (next (Run i) w) = false /\
    feed_reads (next (Run i) w) = S (feed_reads w) /\
    outbox (next (Run i) w) = outbox w ++ (chat, stub_alert_text) :: news_of w.
Proof.
  intros i w t Hclear Hi Hpc Hfirst Hsecond. cbn [step]. unfold monitor_pokt.
  rewrite Hi, Hpc, Hclear.
  destruct (monitor_cycle_delivers w Hfirst Hsecond) as (Hok & He & Ht & Hf & Ho).
  destruct (cycle w) as [r w1]; cbn [fst snd] in *. subst r.
  cbn [set_thread threads stop_event feed_reads outbox].
  split; [rewrite Ht; now apply nth_error_replace_same with t|].
  split; [congruence|]. split; assumption.
Qed.

(** An exception that [send_telegram_message] does not catch ends the
    thread (nothing in [monitor_pokt] catches it) and leaves the event
    clear: the process has one loop less, and [/monitor] is still
    answered "already running" and starts nothing. *)
Theorem uncaught_exception_ends_the_loop_silently :
  forall i w t e,
    stop_event w = false ->
    nth_error (threads w) i = Some t ->
    at_pc t = Polling ->
    telegram (List.length (outbox w)) = Raise e ->
    (forall description, e <> RequestException description) ->
    nth_error (threads (next (Run i) w)) i =
    Some {| at_pc := Crashed e; cycles := S (cycles t) |} /\
    stop_event (next (Run i) w) = false /\
    forall update chat_id,
      chat_message update chat_id (PStr "/monitor") ->
      snd (hook update (next (Run i) w)) =
      posted chat_id already_running (next (Run i) w).
Proof.
  intros i w t e Hclear Hi Hpc Hraise Hother.
  assert (Hstep : next (Run i) w =
                  set_thread i {| at_pc := Crashed e; cycles := S (cycles t) |}
                    (posted chat stub_alert_text w)).
  { cbn [step]. unfold monitor_pokt. rewrite Hi, Hpc, Hclear.
    unfold monitor_cycle. rewrite stub_is_reported. unfold bindM, lift.
    rewrite notify_stub_alerts, Hraise.
    destruct e; try reflexivity. now destruct (Hother description). }
  rewrite Hstep. cbn [set_thread threads stop_event posted].
  split; [now apply nth_error_replace_same with t|]. split; [exact Hclear|].
  intros update chat_id Hchat.
  now apply (monitor_when_clear telegram update chat_id).
Qed.

End MonitorRuns.

(** ** The process: every run *)

Lemma py_eq_str_true v s : py_eq_str v s = true -> v = PStr s.
Proof.
  destruct v; cbn [py_eq_str]; try discriminate.
  intros H. apply String.eqb_eq in H. now subst.
Qed.

Section EveryRun.

Variable float_of_text : string -> option float.
Variable TELEGRAM_CHAT_ID : string.
Variable telegram : nat -> result pyval.
Variable feed : nat -> result (list entry).

Abbreviation chat := (PStr TELEGRAM_CHAT_ID).
Abbreviation hook := (webhook telegram).
Abbreviation next := (step float_of_text TELEGRAM_CHAT_ID telegram feed).
Abbreviation after := (run float_of_text TELEGRAM_CHAT_ID telegram feed).
Abbreviation notify := (notify_movement TELEGRAM_CHAT_ID telegram).

(** A chat message that is neither [/monitor] nor [/stop]. *)
Lemma webhook_other update chat_id txt w :
  chat_message update chat_id txt ->
  py_eq_str txt "/monitor" = false -> py_eq_str txt "/stop" = false ->
  exists message, snd (hook update w) = posted chat_id message w.
Proof.
  intros Hchat Hmonitor Hstop.
  destruct (dispatch_other telegram chat_id txt w Hmonitor Hstop) as (message & Hworld & _).
  exists message. rewrite (webhook_chat_message telegram update chat_id txt w Hchat).
  unfold bindM. destruct (dispatch telegram chat_id txt w) as [[u|e] w'];
    cbn [snd] in *; exact Hworld.
Qed.

(** While the event is clear and no thread exists, a request that is
    no [/stop] leaves it so. *)
Lemma request_keeps_idle update w :
  stop_event w = false -> threads w = [] ->
  (forall chat_id, ~ chat_message update chat_id (PStr "/stop")) ->
  stop_event (snd (hook update w)) = false /\ threads (snd (hook update w)) = [].
Proof.
  intros Hclear Hnone Hnostop.
  destruct (webhook_cases telegram update w) as [-> | (chat_id & txt & Hchat)];
    [now split|].
  destruct (py_eq_str txt "/stop") eqn:Hstop.
  - apply py_eq_str_true in Hstop. subst txt. now destruct (Hnostop chat_id).
  - destruct (py_eq_str txt "/monitor") eqn:Hmonitor.
    + apply py_eq_str_true in Hmonitor. subst txt.
      destruct (monitor_when_clear telegram update chat_id w Hchat Hclear) as [-> _].
      now split.
    + destruct (webhook_other update chat_id txt w Hchat Hmonitor Hstop) as [message ->].
      now split.
Qed.

(** From the start of the process no request starts the monitoring
    until a [/stop] has come: whatever is sent, [/monitor] included,
    and however often, the event stays clear and no thread exists. *)
Theorem no_monitoring_before_a_stop :
  forall evs,
    (forall update chat_id,
        In (Request update) evs -> ~ chat_message update chat_id (PStr "/stop")) ->
    stop_event (after evs initial) = false /\
    threads (after evs initial) = [] /\
    active_loops (after evs initial) = 0%nat.
Proof.
  intros evs Hnostop.
  assert (Hidle : forall w,
             stop_event w = false -> threads w = [] ->
             stop_event (after evs w) = false /\ threads (after evs w) = []).
  { induction evs as [|ev evs IH]; intros w Hclear Hnone; cbn [run]; [now split|].
    assert (Hstep : stop_event (next ev w) = false /\ threads (next ev w) = []).
    { destruct ev as [update|i]; cbn [step].
      - apply request_keeps_idle; auto.
        intros chat_id. apply Hnostop. now left.
      - unfold monitor_pokt. rewrite Hnone. destruct i; now split. }
    destruct Hstep as [Hclear' Hnone'].
    apply IH; auto. intros update chat_id Hin. apply Hnostop. now right. }
  destruct (Hidle initial eq_refl eq_refl) as [Hclear Hnone].
  split; [exact Hclear|]. split; [exact Hnone|].
  unfold active_loops. now rewrite Hnone.
Qed.

(** A step of its own moves a thread on or leaves it: its cycles
    never go down, and a thread that has ended stays as it ended. *)
Lemma monitor_pokt_own_thread i w t :
  nth_error (threads w) i = Some t ->
  exists t',
    nth_error (threads (next (Run i) w)) i = Some t' /\
    (cycles t <= cycles t')%nat /\ (active t = false -> t' = t).
Proof.
  intros Hi. cbn [step]. unfold monitor_pokt, active. rewrite Hi.
  destruct (at_pc t) eqn:Hpc.
  - destruct (stop_event w).
    + eexists. cbn [set_thread threads].
      split; [now apply nth_error_replace_same with t|]. cbn. split; [lia | discriminate].
    + destruct (monitor_cycle_world float_of_text TELEGRAM_CHAT_ID telegram feed w)
        as (posts & (_ & Ht & _) & _).
      destruct (monitor_cycle float_of_text TELEGRAM_CHAT_ID telegram feed w)
        as [[u|e] w1]; cbn [snd] in Ht; eexists; cbn [set_thread threads];
        rewrite Ht;
        (split; [now apply nth_error_replace_same with t|]); cbn;
        (split; [lia | discriminate]).
  - eexists. cbn [set_thread threads].
    split; [now apply nth_error_replace_same with t|]. cbn. split; [lia | discriminate].
  - exists t. auto.
  - exists t. auto.
Qed.

Lemma step_keeps ev w :
  (exists posts, outbox (next ev w) = outbox w ++ posts) /\
  forall i t,
    nth_error (threads w) i = Some t ->
    exists t',
      nth_error (threads (next ev w)) i = Some t' /\
      (cycles t <= cycles t')%nat /\ (active t = false -> t' = t).
Proof.
  destruct ev as [update|j].
  - cbn [step]. split.
    + destruct (webhook_cases telegram update w) as [-> | (chat_id & txt & Hchat)].
      * exists []. now rewrite app_nil_r.
      * rewrite (webhook_chat_message telegram update chat_id txt w Hchat).
        destruct (dispatch_replies_once telegram chat_id txt w) as [message Hout].
        exists [(chat_id, message)]. unfold bindM.
        destruct (dispatch telegram chat_id txt w) as [[u|e] w']; exact Hout.
    + intros i t Hi. exists t.
      destruct (webhook_threads telegram update w) as [extra ->].
      split; [|auto]. rewrite nth_error_app1; [exact Hi|].
      apply nth_error_Some. congruence.
  - split.
    + destruct (monitor_thread_world float_of_text TELEGRAM_CHAT_ID telegram feed j w)
        as (_ & _ & _ & posts & Hout & _).
      now exists posts.
    + intros i t Hi. destruct (Nat.eq_dec i j) as [->|Hne].
      * now apply monitor_pokt_own_thread.
      * exists t.
        destruct (monitor_thread_world float_of_text TELEGRAM_CHAT_ID telegram feed j w)
          as (_ & _ & Hothers & _).
        rewrite (Hothers i Hne). auto.
Qed.

(** Whatever happens, in whatever order: no message once posted is
    taken back; no thread is removed; the cycles of a thread never go
    down; and a thread that has left its loop, by the test or by an
    exception, stays exactly as it ended, so that a restart never
    revives it but starts another. *)
Theorem threads_and_messages_are_never_lost :
  forall evs w,
    (exists posts, outbox (after evs w) = outbox w ++ posts) /\
    (List.length (threads w) <= List.length (threads (after evs w)))%nat /\
    forall i t,
      nth_error (threads w) i = Some t ->
      exists t',
        nth_error (threads (after evs w)) i = Some t' /\
        (cycles t <= cycles t')%nat /\ (active t = false -> t' = t).
Proof.
  induction evs as [|ev evs IH]; intros w; cbn [run].
  - split; [exists []; now rewrite app_nil_r|]. split; [apply le_n|].
    intros i t Hi. exists t. auto.
  - destruct (step_keeps ev w) as [[posts Hposts] Hthreads].
    destruct (IH (next ev w)) as ([posts' Hposts'] & Hlength & Hthreads').
    split; [|split].
    + exists (posts ++ posts'). now rewrite Hposts', Hposts, app_assoc.
    + apply Nat.le_trans with (List.length (threads (next ev w))); [|exact Hlength].
      destruct (Nat.le_gt_cases (List.length (threads w))
                  (List.length (threads (next ev w)))) as [Hle|Hgt]; [exact Hle|].
      exfalso.
      destruct (nth_error (threads w) (List.length (threads (next ev w))))
        as [t|] eqn:Hlast.
      * destruct (Hthreads _ t Hlast) as (t' & Hsome & _).
        assert (Hnone : nth_error (threads (next ev w))
                          (List.length (threads (next ev w))) = None)
          by (apply nth_error_None; apply le_n).
        congruence.
      * apply nth_error_None in Hlast. lia.
    + intros i t Hi.
      destruct (Hthreads i t Hi) as (t1 & Hi1 & Hcycles1 & Hended1).
      destruct (Hthreads' i t1 Hi1) as (t2 & Hi2 & Hcycles2 & Hended2).
      exists t2. split; [exact Hi2|]. split; [lia|].
      intros Hended. specialize (Hended1 Hended). subst t1. now apply Hended2.
Qed.

(** ** Detector and notifier together *)

Lemma detect_alert_shape txs : forall threshold found,
  detect_large_movements float_of_text txs threshold = Ok found ->
  Forall (fun a =>
            exists tx_hash x from to time,
              a = PDict [("tx_hash", tx_hash); ("amount", PFloat x);
                         ("from", from); ("to", to); ("time", time)]) found.
Proof.
  induction txs as [|tx rest IH]; intros threshold found Hfound.
  - injection Hfound as <-. constructor.
  - rewrite detect_cons in Hfound.
    destruct (detect_try float_of_text tx threshold []) as [first|e] eqn:Htry.
    + destruct (detect_large_movements float_of_text rest threshold) as [more|e]
        eqn:Hrest; cbn [bind] in Hfound; [|discriminate].
      injection Hfound as <-. apply Forall_app. split; [|now apply IH with threshold].
      destruct (detect_try_outcome float_of_text tx threshold first Htry)
        as [-> | (v & x & _ & _ & _ & ->)]; repeat constructor.
      now repeat eexists.
    + destruct (skipped e); [now apply IH with threshold | discriminate].
Qed.

(** Every alert the detector returns has the five members lines
    103-110 read, so the alert loop never fails on a missing key: for
    an alert whose receiver can be hashed, and a transport that fails
    only as a transport, lines 103-112 return normally and post
    exactly one message, to the configured chat. *)
Theorem every_alert_can_be_notified :
  forall txs threshold found a w,
    detect_large_movements float_of_text txs threshold = Ok found ->
    In a found ->
    hashable (item "to" a) = true ->
    transport_failure (telegram (List.length (outbox w))) ->
    exists message, notify a w = (Ok tt, posted chat message w).
Proof.
  intros txs threshold found a w Hfound Hin Hhash Hfail.
  pose proof (detect_alert_shape txs threshold found Hfound) as Hshape.
  rewrite Forall_forall in Hshape.
  destruct (Hshape a Hin) as (tx_hash & x & from & to & time & ->).
  cbn [item lookup String.eqb Ascii.eqb Bool.eqb] in Hhash.
  assert (Hlabel : exists label, check_exchange_wallet to = Ok label)
    by (destruct to; cbn in Hhash |- *; try discriminate; eauto).
  destruct Hlabel as [label Hlabel].
  exists (alert_text (PFloat x) from to label time tx_hash).
  unfold notify_movement, bindM, lift, send_telegram_message, ret.
  cbn [py_getitem lookup String.eqb Ascii.eqb Bool.eqb]. rewrite Hlabel.
  unfold transport_failure in Hfail.
  destruct (telegram (List.length (outbox w))) as [v|[]];
    reflexivity || contradiction.
Qed.

End EveryRun.

(** ** The start of the process *)


(** *** The further properties on concrete runs *)

(** A thread at its test, the event clear, a transport that delivers
    and a feed with news: the step posts the alert and the news. *)
Lemma running_loop_posts_alert_and_news_witness :
  outbox (step no_numbers chat_of_the_bot delivered shannon_feed (Run 0) one_loop) =
  [(PStr chat_of_the_bot, stub_alert_text);
   (PStr chat_of_the_bot,
    news_text "Shannon mainnet launch" "https://pocket.network/s")] /\
  nth_error (threads (step no_numbers chat_of_the_bot delivered shannon_feed
                        (Run 0) one_loop)) 0 =
  Some {| at_pc := Sleeping; cycles := 1 |}.
Proof.
  destruct (running_loop_posts_alert_and_news no_numbers chat_of_the_bot delivered
              shannon_feed 0%nat one_loop {| at_pc := Polling; cycles := 0 |})
    as (Hthread & _ & _ & Hposts).
  - reflexivity.
  - reflexivity.
  - reflexivity.
  - simpl. exact I.
  - simpl. exact I.
  - split; [exact Hposts | exact Hthread].
Defined.

(** The same thread with a transport that raises another exception:
    it ends, and [/monitor] is refused. *)
Lemma uncaught_exception_ends_the_loop_silently_witness :
  nth_error (threads (step no_numbers chat_of_the_bot broken empty_feed
                        (Run 0) one_loop)) 0 =
  Some {| at_pc := Crashed (Exception "broken pipe"); cycles := 1 |} /\
  stop_event (step no_numbers chat_of_the_bot broken empty_feed (Run 0) one_loop) = false.
Proof.
  destruct (uncaught_exception_ends_the_loop_silently no_numbers chat_of_the_bot broken
              empty_feed 0%nat one_loop {| at_pc := Polling; cycles := 0 |}
              (Exception "broken pipe"))
    as (Hthread & Hevent & _).
  - reflexivity.
  - reflexivity.
  - reflexivity.
  - reflexivity.
  - intros description. discriminate.
  - split; [exact Hthread | exact Hevent].
Defined.

(** From the start, [/monitor] twice with a [/status] and a thread
    step between: no thread. *)
Lemma no_monitoring_before_a_stop_witness :
  threads (process [monitor; status; Run 0; monitor] initial) = [].
Proof.
  apply (no_monitoring_before_a_stop no_numbers chat_of_the_bot delivered empty_feed
           [monitor; status; Run 0; monitor]).
  intros update chat_id Hin Hchat.
  destruct Hchat as [d m c Hupdate Hm Hc Hid Htxt]. subst update.
  destruct Hin as [Hin | [Hin | [Hin | [Hin | []]]]]; try discriminate Hin;
    injection Hin as <-; cbn in Hm; injection Hm as <-; cbn in Htxt;
    discriminate Htxt.
Defined.

(** A restart after a stop within one sleep: the first thread and the
    three replies are still there. *)
Lemma threads_and_messages_are_never_lost_witness :
  exists t',
    nth_error (threads (process [monitor; Run 0; Run 0] stopped_asleep)) 0 = Some t' /\
    (1 <= cycles t')%nat.
Proof.
  destruct (proj2 (proj2 (threads_and_messages_are_never_lost no_numbers chat_of_the_bot
                            delivered empty_feed [monitor; Run 0; Run 0] stopped_asleep))
              0%nat {| at_pc := Sleeping; cycles := 1 |})
    as (t' & Ht' & Hcycles & _).
  - reflexivity.
  - exists t'. split; [exact Ht' | exact Hcycles].
Defined.

(** The alert of the stub's transaction is notified. *)
Lemma every_alert_can_be_notified_witness :
  exists message,
    notify_movement chat_of_the_bot timed_out stub_alert initial =
    (Ok tt, posted (PStr chat_of_the_bot) message initial).
Proof.
  apply (every_alert_can_be_notified no_numbers chat_of_the_bot timed_out
           fetch_pokt_transactions default_threshold [stub_alert] stub_alert initial).
  - vm_compute. reflexivity.
  - left. reflexivity.
  - reflexivity.
  - simpl. exact I.
Defined.

(** The label of an address of the table, and a list as address. *)
Lemma exchange_labels_identify_the_address_witness :
  check_exchange_wallet (PStr "0x1234...") = Ok (PStr "Binance") /\
  check_exchange_wallet (PList []) = Raise TypeError.
Proof.
  destruct (exchange_labels_identify_the_address (PStr "0x1234...")) as ([_ Hfrom] & _).
  destruct (exchange_labels_identify_the_address (PList [])) as (_ & _ & _ & Hraise).
  split; [apply Hfrom; reflexivity | apply Hraise; reflexivity].
Defined.

